(** * The 50ohm HTML renderers: figure numbering and rendering rules

    A shallow embedding of [renderer/fifty_ohm_html_renderer.py] (class
    [FiftyOhmHtmlRenderer], "document mode") and of
    [renderer/fifty_ohm_html_slide_renderer.py] (class
    [FiftyOhmHtmlSlideRenderer], "slide mode").

    - Python [str] values are [string]s holding the UTF-8 bytes of the text.
    - An attribute that may be [None] is an [option]; [None] formatted by an
      f-string prints as the text None.
    - The renderer instance is the record [Renderer]; methods that mutate
      [self] run in the monad [Py], which threads the instance and can raise.
    - A token of the tree produced by the parser is a [Node]: its class with
      the attributes of that class ([Kind]), and its [children] attribute,
      [None] where the attribute is missing or is [None]. *)

From stdpp Require Import gmap strings list pretty.

#[local] Open Scope string_scope.
#[local] Open Scope list_scope.

(** ** Python strings *)

Definition nl : string := String (Ascii.ascii_of_nat 10) EmptyString.
Definition dq : string := String (Ascii.ascii_of_nat 34) EmptyString.
Definition sp16 : string := "                ".
Definition sp20 : string := "                    ".

(** [base.join(l)] *)
Fixpoint str_join (base : string) (l : list string) : string :=
  match l with
  | [] => EmptyString
  | x :: rest =>
      match rest with
      | [] => x
      | _ :: _ => x +:+ base +:+ str_join base rest
      end
  end.

(** [filter(lambda x: x is not None, l)] *)
Definition filter_not_none (l : list (option string)) : list string :=
  omap (fun x => x) l.

(** Truth value of a [str]-or-[None] attribute. *)
Definition truthy (o : option string) : bool :=
  match o with
  | Some s => bool_decide (s ≠ EmptyString)
  | None => false
  end.

(** [a or b] *)
Definition py_or (a b : option string) : option string :=
  if truthy a then a else b.

(** How an f-string prints a [str]-or-[None] value. *)
Definition py_str (o : option string) : string :=
  match o with
  | Some s => s
  | None => "None"
  end.

(** ** Tokens *)

(** The class of a token, with the attributes the renderers read. *)
Inductive Kind : Type :=
  (* tokens of the base renderer *)
  | RawText (content : string)
  | Core (head : string)  (* any other core token; head: class and attributes *)
  | Document (footnotes : gmap string (string * string))
  | ThematicBreak
  (* extension tokens registered by FiftyOhmHtmlRenderer.__init__ *)
  | Dash
  | BlockComment
  | Quote
  | Unit (value prefix unit : string)
  | Underline
  | Morse (content : string)
  | Tag (tagtype : string)
  | HalfwidthSpaces (first second : string)
  | NonbreakingSpaces (first second : string)
  | NonbreakingSpacesDots (first second third : string)
  | References (first : string)
  | Question (question_number : string)
  | Picture (id : string) (ref : option string) (text : string) (number : string)
  | Photo (id : string) (ref : option string) (text : string) (number : string)
  | Table (name : option string) (caption : string) (number : option string)
  | TableHeader
  | TableRow
  | TableCell (header : bool) (alignment : option string)
  | TableBody (header : bool)
  | Qso
  | QsoLine (received : bool)  (* a child of a Qso *)
  | Include (ident : string)
  | Formula (formula : string)
  (* registered by FiftyOhmHtmlSlideRenderer.__init__ only *)
  | SlideBreak (attribute : option string).

#[local] Unset Elimination Schemes.

Inductive Token : Type :=
  | Node (kind : Kind) (children : option (list Token)).

#[local] Set Elimination Schemes.

Definition token_kind (t : Token) : Kind :=
  match t with Node k _ => k end.

Definition token_children (t : Token) : option (list Token) :=
  match t with Node _ cs => cs end.

(** A token without children, and a token with the given children. *)
Definition leaf (k : Kind) : Token := Node k None.
Definition node (k : Kind) (cs : list Token) : Token := Node k (Some cs).

(** ** The renderer instance *)

Record Renderer : Type := mkRenderer {
  margin_anchor_id : nat;
  margin_id : nat;
  section_url : string;
  ref_id : nat;
  question_renderer : option (string -> string);
  picture_handler : option (string -> option string);
  photo_handler : option (string -> option string);
  include_handler : option (string -> string);
  edition : option string;
  chapter : option string;
  section : option string;
  figure_map : gmap string string;
  figure_counter : nat;
  (* attribute of the base renderer, updated by render_document *)
  footnotes : gmap string (string * string)
}.

Definition set_margin_anchor_id (n : nat) (r : Renderer) : Renderer :=
  mkRenderer n (margin_id r) (section_url r) (ref_id r) (question_renderer r)
    (picture_handler r) (photo_handler r) (include_handler r) (edition r)
    (chapter r) (section r) (figure_map r) (figure_counter r) (footnotes r).

Definition set_margin_id (n : nat) (r : Renderer) : Renderer :=
  mkRenderer (margin_anchor_id r) n (section_url r) (ref_id r)
    (question_renderer r) (picture_handler r) (photo_handler r)
    (include_handler r) (edition r) (chapter r) (section r) (figure_map r)
    (figure_counter r) (footnotes r).

Definition set_edition (e : option string) (r : Renderer) : Renderer :=
  mkRenderer (margin_anchor_id r) (margin_id r) (section_url r) (ref_id r)
    (question_renderer r) (picture_handler r) (photo_handler r)
    (include_handler r) e (chapter r) (section r) (figure_map r)
    (figure_counter r) (footnotes r).

Definition set_figure_map (m : gmap string string) (r : Renderer) : Renderer :=
  mkRenderer (margin_anchor_id r) (margin_id r) (section_url r) (ref_id r)
    (question_renderer r) (picture_handler r) (photo_handler r)
    (include_handler r) (edition r) (chapter r) (section r) m
    (figure_counter r) (footnotes r).

Definition set_figure_counter (n : nat) (r : Renderer) : Renderer :=
  mkRenderer (margin_anchor_id r) (margin_id r) (section_url r) (ref_id r)
    (question_renderer r) (picture_handler r) (photo_handler r)
    (include_handler r) (edition r) (chapter r) (section r) (figure_map r) n
    (footnotes r).

Definition set_footnotes (f : gmap string (string * string)) (r : Renderer)
  : Renderer :=
  mkRenderer (margin_anchor_id r) (margin_id r) (section_url r) (ref_id r)
    (question_renderer r) (picture_handler r) (photo_handler r)
    (include_handler r) (edition r) (chapter r) (section r) (figure_map r)
    (figure_counter r) f.

(** The two classes. *)
Inductive Mode : Type := DocumentMode | SlideMode.

(** [FiftyOhmHtmlRenderer.__init__]: the class attributes give the counters
    their initial value 0 and [section_url] its default; the constructor of
    the base renderer starts with no footnotes. *)
Definition init (question_renderer : option (string -> string))
    (picture_handler photo_handler : option (string -> option string))
    (include_handler : option (string -> string))
    (edition chapter section section_url : option string) : Renderer :=
  {| margin_anchor_id := 0;
     margin_id := 0;
     section_url := match section_url with
                    | Some u => u
                    | None => "section.html"
                    end;
     ref_id := 0;
     question_renderer := question_renderer;
     picture_handler := picture_handler;
     photo_handler := photo_handler;
     include_handler := include_handler;
     edition := edition;
     chapter := chapter;
     section := section;
     figure_map := ∅;
     figure_counter := 0;
     footnotes := ∅ |}.

(** [FiftyOhmHtmlSlideRenderer.__init__]: the edition gets the suffix S. *)
Definition slide_init (question_renderer : option (string -> string))
    (picture_handler photo_handler : option (string -> option string))
    (include_handler : option (string -> string))
    (ed ch sec url : option string) : Renderer :=
  let self := init question_renderer picture_handler photo_handler
                include_handler ed ch sec url in
  if truthy (edition self)
  then set_edition (Some (py_str (edition self) +:+ "S")) self
  else self.

Definition new (mode : Mode) :=
  match mode with
  | DocumentMode => init
  | SlideMode => slide_init
  end.

(** ** Figure numbering (first pass) *)

(** [_format_figure_number] *)
Definition _format_figure_number (self : Renderer) (counter : nat) : string :=
  if truthy (edition self) && truthy (chapter self) && truthy (section self)
  then py_str (edition self) +:+ "-" +:+ py_str (chapter self) +:+ "."
       +:+ py_str (section self) +:+ "." +:+ pretty counter
  else pretty counter.

(** [isinstance(child, Picture | Photo | Table)] *)
Definition is_figure (k : Kind) : bool :=
  match k with
  | Picture _ _ _ _ | Photo _ _ _ _ | Table _ _ _ => true
  | _ => false
  end.

(** [getattr(child, "ref", None) or getattr(child, "name", None)]: pictures
    and photos carry [ref], tables carry [name]. *)
Definition figure_ref_id (k : Kind) : option string :=
  match k with
  | Picture _ ref _ _ | Photo _ ref _ _ => py_or ref None
  | Table name _ _ => py_or None name
  | _ => None
  end.

(** [child.number = n] *)
Definition set_number (n : string) (t : Token) : Token :=
  match t with
  | Node (Picture i ref text _) cs => Node (Picture i ref text n) cs
  | Node (Photo i ref text _) cs => Node (Photo i ref text n) cs
  | Node (Table name caption _) cs => Node (Table name caption (Some n)) cs
  | _ => t
  end.

(** [token.number], where the attribute is set. *)
Definition token_number (t : Token) : option string :=
  match token_kind t with
  | Picture _ _ _ n | Photo _ _ _ n => Some n
  | Table _ _ n => n
  | _ => None
  end.

(** The body of the [if isinstance(...)] block of
    [_collect_figures_recursive] for one child: the number to store on the
    child (if it is a figure) and the updated instance. *)
Definition number_child (child : Token) (self : Renderer)
  : option string * Renderer :=
  if is_figure (token_kind child) then
    let ref_id := figure_ref_id (token_kind child) in
    if truthy ref_id then
      let self1 := set_figure_counter (figure_counter self + 1) self in
      let hierarchical_num := _format_figure_number self1 (figure_counter self1) in
      let self2 := set_figure_map
                     (<[py_str ref_id := hierarchical_num]> (figure_map self1))
                     self1 in
      (Some hierarchical_num, self2)
    else (Some EmptyString, self)
  else (None, self).

Definition apply_number (n : option string) (t : Token) : Token :=
  match n with
  | Some s => set_number s t
  | None => t
  end.

(** [_collect_figures_recursive]: the tokens are mutated in place in the
    source; here the traversal returns the tree with the numbers written on
    it.  For each child the number is assigned first, then the traversal
    descends into the child. *)
Fixpoint _collect_figures_recursive (token : Token) (self : Renderer)
  : Token * Renderer :=
  match token with
  | Node kind (Some children) =>
      let '(children', self') :=
        (fix loop (children : list Token) (self : Renderer)
           : list Token * Renderer :=
           match children with
           | [] => ([], self)
           | child :: rest =>
               let '(n, self1) := number_child child self in
               let '(child', self2) := _collect_figures_recursive child self1 in
               let '(rest', self3) := loop rest self2 in
               (apply_number n child' :: rest', self3)
           end) children self in
      (Node kind (Some children'), self')
  | Node kind None => (token, self)
  end.

(** The [for child in token.children] loop on its own. *)
Fixpoint collect_children (children : list Token) (self : Renderer)
  : list Token * Renderer :=
  match children with
  | [] => ([], self)
  | child :: rest =>
      let '(n, self1) := number_child child self in
      let '(child', self2) := _collect_figures_recursive child self1 in
      let '(rest', self3) := collect_children rest self2 in
      (apply_number n child' :: rest', self3)
  end.

(** [collect_figures] *)
Definition collect_figures (document : Token) (self : Renderer)
  : Token * Renderer :=
  let self1 := set_figure_counter 0 self in
  let self2 := set_figure_map ∅ self1 in
  _collect_figures_recursive document self2.

(** ** Rendering (second pass) *)

(** What the renderer calls but does not define: the jinja2 template
    [templates/html/margin.html], the base renderer's escaping of raw text and
    its rules for the core tokens, and [Morse.convert_to_morse_code]. *)
Record Externals : Type := mkExternals {
  margin_template : string -> string -> nat -> nat -> string;
  escape_html : string -> string;
  core_rule : string -> string -> string;
  convert_to_morse_code : string -> list (list nat)
}.

(** One call of the margin template: type, content, id, margin_anchor_id. *)
Record TemplateCall : Type := mkCall {
  call_type : string;
  call_content : string;
  call_id : nat;
  call_margin_anchor_id : nat
}.

(** The state a rendering runs in: the instance, and the calls made to the
    margin template so far, oldest first. *)
Record World : Type := mkWorld {
  instance : Renderer;
  template_calls : list TemplateCall
}.

Inductive Exc : Type := TypeError | KeyError | AttributeError.

(** A method that may mutate the instance and may raise.  What was mutated
    before an exception stays mutated. *)
Definition Py (A : Type) : Type := World -> (Exc + A) * World.

Definition ret {A : Type} (a : A) : Py A := fun w => (inr a, w).

Definition raise {A : Type} (e : Exc) : Py A := fun w => (inl e, w).

Definition bind {A B : Type} (m : Py A) (k : A -> Py B) : Py B :=
  fun w =>
    match m w with
    | (inr a, w') => k a w'
    | (inl e, w') => (inl e, w')
    end.

Notation "'let*' x ':=' m 'in' k" := (bind m (fun x => k))
  (at level 10, x name, m at level 100, k at level 200).

Definition get_self : Py Renderer := fun w => (inr (instance w), w).

Definition modify_self (f : Renderer -> Renderer) : Py unit :=
  fun w => (inr tt, mkWorld (f (instance w)) (template_calls w)).

Definition log_call (c : TemplateCall) : Py unit :=
  fun w => (inr tt, mkWorld (instance w) (template_calls w ++ [c])).

Definition mapM {A B : Type} (f : A -> Py B) : list A -> Py (list B) :=
  fix go (l : list A) : Py (list B) :=
    match l with
    | [] => ret []
    | a :: l' => let* b := f a in let* bs := go l' in ret (b :: bs)
    end.

(** [table_alignment] *)
Definition table_alignment : gmap string string :=
  {[ "l" := "left"; "c" := "center"; "r" := "right" ]}.

(** [FiftyOhmHtmlRenderer.units] *)
Definition units : gmap string string := {[ "Ohm" := "Ω" ]}.

(** [convert_unit_helper] *)
Definition convert_unit_helper (unit : string) : string :=
  match units !! unit with
  | Some glyph => glyph
  | None => unit
  end.

(** [render_unit] *)
Definition render_unit (value prefix unit : string) : string :=
  let unit' := prefix +:+ convert_unit_helper unit in
  if bool_decide (unit ∈ ["°"; "%"])
  then value +:+ unit'
  else value +:+ "&#8239;" +:+ unit'.

(** [render_morse_helper] *)
Definition render_morse_symbol (symbol : nat) : string :=
  "<span class=" +:+ dq +:+ "morse_symbol" +:+ dq +:+ ">" +:+ nl
  +:+ (match symbol with
       | 1 => "▄"
       | 2 => "▄▄▄"
       | 3 => "&nbsp;"
       | _ => EmptyString
       end)
  +:+ "</span>" +:+ nl.

Definition render_morse_char (char : list nat) : string :=
  "<span class=" +:+ dq +:+ "morse_char" +:+ dq +:+ ">" +:+ nl
  +:+ foldl (fun result symbol => result +:+ render_morse_symbol symbol)
        EmptyString char
  +:+ "</span>" +:+ nl.

Definition render_morse_helper (morse_code : list (list nat)) : string :=
  foldl (fun result char => result +:+ render_morse_char char)
    ("<span class=" +:+ dq +:+ "morse" +:+ dq +:+ ">") morse_code
  +:+ "</span>".

(** [render_img_helper] *)
Definition render_img_helper (url alt_text : string) : string :=
  nl +:+ sp16 +:+ "<img src=" +:+ dq +:+ url +:+ dq +:+ " alt=" +:+ dq
  +:+ alt_text +:+ dq +:+ ">" +:+ nl +:+ sp16.

(** [render_figure_link_helper]: the slide renderer overrides it. *)
Definition render_figure_link_helper (mode : Mode) (url text : string)
  : string :=
  match mode with
  | DocumentMode =>
      nl +:+ sp16 +:+ "<a href=" +:+ dq +:+ url +:+ dq +:+ ">" +:+ text
      +:+ "</a>" +:+ nl +:+ sp16
  | SlideMode => text
  end.

(** [render_figure_helper]; the [alt_text] argument is not used. *)
Definition render_figure_helper (ref : option string)
    (text number alt_text css_class content : string) : string :=
  nl +:+ sp16 +:+ "<figure class=" +:+ dq +:+ css_class +:+ dq +:+ " id="
  +:+ dq +:+ "ref_" +:+ py_str ref +:+ dq +:+ " name=" +:+ dq +:+ py_str ref
  +:+ dq +:+ ">" +:+ nl
  +:+ sp20 +:+ content +:+ nl
  +:+ sp20 +:+ "<figcaption>Abbildung " +:+ number +:+ ": " +:+ text
  +:+ "</figcaption>" +:+ nl
  +:+ sp16 +:+ "</figure>" +:+ nl +:+ sp16.

(** [render_picture] *)
Definition render_picture (mode : Mode) (self : Renderer)
    (id : string) (ref : option string) (text number : string) : string :=
  let alt_text :=
    match picture_handler self with
    | Some handler => py_str (handler id)
    | None => EmptyString
    end in
  let url := "pictures/" +:+ id +:+ ".svg" in
  let img_text := render_img_helper url alt_text in
  let content := render_figure_link_helper mode url img_text in
  render_figure_helper ref text number alt_text "picture" content.

(** [render_photo] *)
Definition render_photo (mode : Mode) (self : Renderer)
    (id : string) (ref : option string) (text number : string) : string :=
  let alt_text :=
    match photo_handler self with
    | Some handler => py_str (py_or (handler id) (Some EmptyString))
    | None => EmptyString
    end in
  let url := "photos/" +:+ id +:+ ".png" in
  let img_text := render_img_helper url alt_text in
  let content := render_figure_link_helper mode url img_text in
  render_figure_helper ref text number alt_text "photo" content.

(** [render_references] *)
Definition render_references (self : Renderer) (first : string) : string :=
  let figure_num := default "?" (figure_map self !! first) in
  "<a href=" +:+ dq +:+ section_url self +:+ "#ref_" +:+ first +:+ dq
  +:+ " onclick=" +:+ dq +:+ "highlightRef('" +:+ first +:+ "');" +:+ dq
  +:+ ">" +:+ figure_num +:+ "</a>".

(** [render_tag_helper]: renders the margin template. *)
Definition render_tag_helper (ext : Externals) (type content : string)
    (margin_id margin_anchor_id : nat) : Py string :=
  let* _ := log_call (mkCall type content margin_id margin_anchor_id) in
  ret (margin_template ext type content margin_id margin_anchor_id).

(** The rules below take the dispatcher [render] ([self.render]) as an
    argument; [render] further down ties the knot. *)
Section Rules.

Context (ext : Externals) (render : Token -> Py (option string)).

(** [render_inner]; iterating over [None] raises. *)
Definition render_inner (children : option (list Token)) (base : string)
  : Py string :=
  match children with
  | Some cs =>
      let* rendered := mapM render cs in
      ret (str_join base (filter_not_none rendered))
  | None => raise TypeError
  end.

(** [render_quote] *)
Definition render_quote (children : option (list Token)) : Py (option string) :=
  let* inner := render_inner children EmptyString in
  ret (Some ("„" +:+ inner +:+ "“")).

(** [render_underline] *)
Definition render_underline (children : option (list Token)) : Py (option string) :=
  let* inner := render_inner children EmptyString in
  ret (Some ("<u>" +:+ inner +:+ "</u>")).

(** [render_thematic_break] *)
Definition render_thematic_break : Py (option string) :=
  let* _ := modify_self
              (fun self => set_margin_anchor_id (margin_anchor_id self + 1) self) in
  let* self := get_self in
  ret (Some ("<a id=" +:+ dq +:+ "margin_" +:+ pretty (margin_anchor_id self)
             +:+ dq +:+ "></a>")).

(** [FiftyOhmHtmlRenderer.render_tag].  The arguments of the call of
    [render_tag_helper] are evaluated from left to right: the children are
    rendered before [self.margin_id] and [self.margin_anchor_id] are read. *)
Definition render_tag (tagtype : string) (children : option (list Token))
  : Py (option string) :=
  if decide (tagtype = "latexonly") then ret (Some EmptyString)
  else if decide (tagtype = "webonly") then
    let* inner := render_inner children EmptyString in
    ret (Some inner)
  else
    let* _ := modify_self (fun self => set_margin_id (margin_id self + 1) self) in
    let type :=
      if decide (tagtype = "webmargin") then "margin"
      else if decide (tagtype = "webtip") then "tip"
      else if decide (tagtype = "webindepth") then "indepth"
      else tagtype in
    let* inner := render_inner children EmptyString in
    let* self := get_self in
    let* out := render_tag_helper ext type inner (margin_id self)
                  (margin_anchor_id self) in
    ret (Some out).

(** [FiftyOhmHtmlSlideRenderer.render_tag] *)
Definition slide_render_tag (tagtype : string) (children : option (list Token))
  : Py (option string) :=
  if decide (tagtype = "fragment") then
    let* inner := render_inner children EmptyString in
    ret (Some ("<div class=" +:+ dq +:+ "fragment" +:+ dq +:+ ">" +:+ nl
               +:+ inner +:+ nl +:+ "</div>" +:+ nl))
  else if decide (tagtype = "left") then
    let* inner := render_inner children EmptyString in
    ret (Some ("<div id=" +:+ dq +:+ "left" +:+ dq +:+ ">" +:+ nl
               +:+ inner +:+ nl +:+ "</div>" +:+ nl))
  else if decide (tagtype = "right") then
    let* inner := render_inner children EmptyString in
    ret (Some ("<div id=" +:+ dq +:+ "right" +:+ dq +:+ ">" +:+ nl
               +:+ inner +:+ nl +:+ "</div>" +:+ nl))
  else if decide (tagtype = "note") then
    let* inner := render_inner children EmptyString in
    ret (Some ("<aside class=" +:+ dq +:+ "notes" +:+ dq +:+ ">" +:+ nl
               +:+ inner +:+ nl +:+ "</aside>" +:+ nl))
  else ret (Some EmptyString).

(** The [for child in token.children] loop of [render_qso]; a child without
    the attribute [received] raises. *)
Definition qso_loop (line : bool -> string -> string)
  : list Token -> string -> Py string :=
  fix loop (children : list Token) (qso : string) : Py string :=
    match children with
    | [] => ret qso
    | Node (QsoLine received) cs :: rest =>
        let* inner := render_inner cs EmptyString in
        loop rest (qso +:+ line received inner)
    | _ :: _ => raise AttributeError
    end.

Definition qso_children (line : bool -> string -> string)
    (children : option (list Token)) (qso : string) : Py string :=
  match children with
  | Some cs => qso_loop line cs qso
  | None => raise TypeError
  end.

Definition qso_line (received : bool) (inner : string) : string :=
  let direction := if received then "other" else "own" in
  "<div class=" +:+ dq +:+ "qso_" +:+ direction +:+ dq +:+ ">" +:+ inner
  +:+ "</div>" +:+ nl.

(** [FiftyOhmHtmlRenderer.render_qso] *)
Definition render_qso (children : option (list Token)) : Py (option string) :=
  let* _ := modify_self (fun self => set_margin_id (margin_id self + 1) self) in
  let* qso := qso_children qso_line children EmptyString in
  let* self := get_self in
  let* out := render_tag_helper ext "qso" qso (margin_id self)
                (margin_anchor_id self) in
  ret (Some out).

Definition slide_qso_line (received : bool) (inner : string) : string :=
  let direction := if received then "other" else "own" in
  let fade := if received then "fragment fade-left" else "fragment fade-right" in
  "<div class=" +:+ dq +:+ "qso_" +:+ direction +:+ " " +:+ fade +:+ dq
  +:+ ">" +:+ inner +:+ "</div>" +:+ nl.

(** [FiftyOhmHtmlSlideRenderer.render_qso] *)
Definition slide_render_qso (children : option (list Token)) : Py (option string) :=
  let* qso := qso_children slide_qso_line children
                ("<div class=" +:+ dq +:+ "qso r-fit-text" +:+ dq +:+ ">" +:+ nl) in
  ret (Some (qso +:+ "</div>" +:+ nl)).

(** [render_nonbreaking_spaces_dots]: [lookup[...]] raises on other keys. *)
Definition dots_lookup (k : string) : Py string :=
  if decide (k = EmptyString) then ret EmptyString
  else if decide (k = " ") then ret "&#160;"
  else raise KeyError.

Definition render_nonbreaking_spaces_dots (first second third : string)
  : Py (option string) :=
  let* a := dots_lookup first in
  let* b := dots_lookup third in
  ret (Some (a +:+ second +:+ b)).

(** [render_question] and [render_include]: calling a handler that is
    [None] raises. *)
Definition render_question (question_number : string) : Py (option string) :=
  let* self := get_self in
  match question_renderer self with
  | Some f => ret (Some (f question_number))
  | None => raise TypeError
  end.

Definition render_include (ident : string) : Py (option string) :=
  let* self := get_self in
  match include_handler self with
  | Some f => ret (Some (f ident))
  | None => raise TypeError
  end.

(** [render_document]: [self.footnotes.update(token.footnotes)] lets the
    footnotes of the token overwrite those of the instance under the same
    key. *)
Definition render_document (token_footnotes : gmap string (string * string))
    (children : option (list Token)) : Py (option string) :=
  let* _ := modify_self
              (fun self => set_footnotes (token_footnotes ∪ footnotes self) self) in
  let* inner := render_inner children nl in
  ret (Some (if decide (inner = EmptyString) then EmptyString else inner +:+ nl)).

(** [render_table] *)
Definition render_table (name : option string) (caption : string)
    (number : option string) (children : option (list Token)) : Py (option string) :=
  let table_attrs :=
    if truthy name
    then " id=" +:+ dq +:+ "ref_" +:+ py_str name +:+ dq +:+ " name=" +:+ dq
         +:+ py_str name +:+ dq
    else EmptyString in
  let* inner := render_inner children EmptyString in
  let table := "<table class=" +:+ dq +:+ "table table-hover" +:+ dq
               +:+ table_attrs +:+ ">" +:+ nl +:+ inner in
  let table :=
    if decide (caption ≠ EmptyString) then
      let caption_text :=
        if truthy number
        then "Tabelle " +:+ py_str number +:+ ": " +:+ caption
        else caption in
      table +:+ "<caption>" +:+ caption_text +:+ "</caption>" +:+ nl
    else table in
  ret (Some (table +:+ "</table>")).

(** [render_table_row]; [render_table_header] delegates to it. *)
Definition render_table_row (children : option (list Token)) : Py (option string) :=
  let* inner := render_inner children EmptyString in
  ret (Some ("<tr>" +:+ nl +:+ inner +:+ "</tr>" +:+ nl)).

Definition render_table_header (children : option (list Token)) : Py (option string) :=
  render_table_row children.

(** [render_table_cell] *)
Definition render_table_cell (header : bool) (alignment : option string)
    (children : option (list Token)) : Py (option string) :=
  let type := if header then "th" else "td" in
  let style :=
    match alignment ≫= (fun a => table_alignment !! a) with
    | Some dir => " style=" +:+ dq +:+ "text-align: " +:+ dir +:+ ";" +:+ dq
    | None => EmptyString
    end in
  let* inner := render_inner children EmptyString in
  ret (Some ("<" +:+ type +:+ style +:+ ">" +:+ inner +:+ "</" +:+ type
             +:+ ">" +:+ nl)).

(** [render_table_body] *)
Definition render_table_body (header : bool) (children : option (list Token))
  : Py (option string) :=
  match children with
  | None => ret None
  | Some [] => ret None
  | Some (_ :: _) =>
      let type := if header then "thead" else "tbody" in
      let* inner := render_inner children EmptyString in
      ret (Some ("<" +:+ type +:+ ">" +:+ nl +:+ inner +:+ "</" +:+ type
                 +:+ ">" +:+ nl))
  end.

(** [render_slide_break] *)
Definition render_slide_break (attribute : option string)
    (children : option (list Token)) : Py (option string) :=
  let* inner := render_inner children EmptyString in
  match attribute with
  | None => ret (Some ("<section>" +:+ nl +:+ inner +:+ nl +:+ "</section>" +:+ nl))
  | Some a => ret (Some ("<section " +:+ a +:+ ">" +:+ nl +:+ inner +:+ nl
                         +:+ "</section>" +:+ nl))
  end.

End Rules.

(** [self.render(token)]: the dispatch on the class of the token, for the
    document renderer and for the slide renderer.  The rule is looked up
    under the name of the class: a class without a rule (a child of a Qso
    dispatched by itself; a SlideBreak in the document renderer, which does
    not register it) raises a KeyError. *)
Fixpoint render (ext : Externals) (mode : Mode) (token : Token)
  : Py (option string) :=
  let self_render := render ext mode in
  match token with
  | Node kind children =>
      match kind with
      | RawText content => ret (Some (escape_html ext content))
      | Core head =>
          let* inner := render_inner self_render children EmptyString in
          ret (Some (core_rule ext head inner))
      | Document token_footnotes =>
          render_document self_render token_footnotes children
      | ThematicBreak => render_thematic_break
      | Dash => ret (Some " &ndash; ")
      | BlockComment => ret None
      | Quote => render_quote self_render children
      | Unit value prefix unit => ret (Some (render_unit value prefix unit))
      | Underline => render_underline self_render children
      | Morse content =>
          ret (Some (render_morse_helper (convert_to_morse_code ext content)))
      | Tag tagtype =>
          match mode with
          | DocumentMode => render_tag ext self_render tagtype children
          | SlideMode => slide_render_tag self_render tagtype children
          end
      | HalfwidthSpaces first second =>
          ret (Some (first +:+ ".&#8239;" +:+ second +:+ "."))
      | NonbreakingSpaces first second =>
          ret (Some (first +:+ "&#160;" +:+ second))
      | NonbreakingSpacesDots first second third =>
          render_nonbreaking_spaces_dots first second third
      | References first =>
          let* self := get_self in ret (Some (render_references self first))
      | Question question_number => render_question question_number
      | Picture id ref text number =>
          let* self := get_self in
          ret (Some (render_picture mode self id ref text number))
      | Photo id ref text number =>
          let* self := get_self in
          ret (Some (render_photo mode self id ref text number))
      | Table name caption number =>
          render_table self_render name caption number children
      | TableHeader => render_table_header self_render children
      | TableRow => render_table_row self_render children
      | TableCell header alignment =>
          render_table_cell self_render header alignment children
      | TableBody header => render_table_body self_render header children
      | Qso =>
          match mode with
          | DocumentMode => render_qso ext self_render children
          | SlideMode => slide_render_qso self_render children
          end
      | QsoLine _ => raise KeyError
      | Include ident => render_include ident
      | Formula formula => ret (Some (nl +:+ "$$" +:+ formula +:+ "$$" +:+ nl))
      | SlideBreak attribute =>
          match mode with
          | DocumentMode => raise KeyError
          | SlideMode => render_slide_break self_render attribute children
          end
      end
  end.

(** ** Pre-order listing of a tree (specification side) *)

(** The proper descendants of a token in pre-order: each child, followed by
    its own descendants, before the next child. *)
Fixpoint descendants (token : Token) : list Token :=
  match token with
  | Node _ (Some children) =>
      (fix forest (l : list Token) : list Token :=
         match l with
         | [] => []
         | child :: rest => child :: descendants child ++ forest rest
         end) children
  | Node _ None => []
  end.

Fixpoint forest_descendants (l : list Token) : list Token :=
  match l with
  | [] => []
  | child :: rest => child :: descendants child ++ forest_descendants rest
  end.

(** The figure-bearing tokens below a token, in pre-order. *)
Definition figures (token : Token) : list Token :=
  filter (fun t => is_figure (token_kind t) = true) (descendants token).

(** The reference identifier as the parser stored it: [ref] of a picture or
    photo, [name] of a table. *)
Definition reference_identifier (k : Kind) : option string :=
  match k with
  | Picture _ ref _ _ | Photo _ ref _ _ => ref
  | Table name _ _ => name
  | _ => None
  end.

(** A figure that gets a number: its reference identifier is present and
    not empty. *)
Definition numbered (t : Token) : bool :=
  is_figure (token_kind t) && truthy (reference_identifier (token_kind t)).

(** The value of the figure counter when the [i]-th figure (from 0, in
    pre-order) has been handled, starting from a counter of 0. *)
Definition counter_at (figs : list Token) (i : nat) : nat :=
  length (filter (fun t => numbered t = true) (take (S i) figs)).

(** ** Margin ids (specification side) *)

(** The kinds whose document rule calls the margin template. *)
Definition is_margin_kind (k : Kind) : bool :=
  match k with
  | Tag tagtype =>
      if decide (tagtype = "latexonly") then false
      else if decide (tagtype = "webonly") then false
      else true
  | Qso => true
  | _ => false
  end.

(** The kinds whose document rule renders the children of the token. *)
Definition renders_children (k : Kind) : bool :=
  match k with
  | Core _ | Document _ | Quote | Underline | Table _ _ _ | TableHeader
  | TableRow | TableCell _ _ | TableBody _ | Qso | QsoLine _ | SlideBreak _ =>
      true
  | Tag tagtype => if decide (tagtype = "latexonly") then false else true
  | _ => false
  end.

(** [token] is not rendered by a rule that calls the margin template, and
    neither is any token rendered below it. *)
Fixpoint margin_free (token : Token) : bool :=
  match token with
  | Node k children =>
      negb (is_margin_kind k)
      && (negb (renders_children k)
          || match children with
             | Some cs => forallb margin_free cs
             | None => true
             end)
  end.

(** No token rendered by a rule that calls the margin template is rendered
    below another such token. *)
Fixpoint margin_flat (token : Token) : bool :=
  match token with
  | Node k children =>
      negb (renders_children k)
      || match children with
         | Some cs =>
             if is_margin_kind k then forallb margin_free cs
             else forallb margin_flat cs
         | None => true
         end
  end.

(** The template calls and the margin id are the same in both states. *)
Definition quiet (w w' : World) : Prop :=
  template_calls w' = template_calls w
  ∧ margin_id (instance w') = margin_id (instance w).

(** From [w] to [w'] the template was called with the ids that follow the
    margin id of [w], one after the other. *)
Definition consecutive_calls (w w' : World) : Prop :=
  ∃ new, template_calls w' = template_calls w ++ new
         ∧ map call_id new = seq (S (margin_id (instance w))) (length new).

(** The same, and the margin id of [w'] is the last id that was passed. *)
Definition consecutive_run (w w' : World) : Prop :=
  ∃ new, template_calls w' = template_calls w ++ new
         ∧ map call_id new = seq (S (margin_id (instance w))) (length new)
         ∧ margin_id (instance w')
           = margin_id (instance w) + length new.

(** [I] relates the initial state to the final state of a call that
    returned, [E] to the final state of a call that raised. *)
Definition outcome {A : Type} (I E : World → World → Prop) (w : World)
    (x : (Exc + A) * World) : Prop :=
  match x with
  | (inr _, w') => I w w'
  | (inl _, w') => E w w'
  end.

(** The state in which a margin rule renders its children. *)
Definition enter_margin (w : World) : World :=
  mkWorld (set_margin_id (margin_id (instance w) + 1) (instance w))
    (template_calls w).

(** The state after the footnotes of a document were taken over. *)
Definition after_footnotes (token_footnotes : gmap string (string * string))
    (w : World) : World :=
  mkWorld (set_footnotes (token_footnotes ∪ footnotes (instance w)) (instance w))
    (template_calls w).

(** The category a tag type is passed to the template under. *)
Definition tag_category (tagtype : string) : string :=
  if decide (tagtype = "webmargin") then "margin"
  else if decide (tagtype = "webtip") then "tip"
  else if decide (tagtype = "webindepth") then "indepth"
  else tagtype.

(** The call of the margin template at the end of a margin rule, in the
    state [w] reached after the children. *)
Definition leave_margin (ext : Externals) (type content : string) (w : World)
  : (Exc + option string) * World :=
  (inr (Some (margin_template ext type content (margin_id (instance w))
                (margin_anchor_id (instance w)))),
   mkWorld (instance w)
     (template_calls w
      ++ [mkCall type content (margin_id (instance w))
            (margin_anchor_id (instance w))])).

(** The hyperlink a Reference renders to, with the given link text. *)
Definition reference_link (self : Renderer) (first link_text : string)
  : string :=
  "<a href=" +:+ dq +:+ section_url self +:+ "#ref_" +:+ first +:+ dq
  +:+ " onclick=" +:+ dq +:+ "highlightRef('" +:+ first +:+ "');" +:+ dq
  +:+ ">" +:+ link_text +:+ "</a>".

(** ** Numbering state (specification side) *)

(** The location context and the numbering state agree. *)
Definition same_numbering (s1 s2 : Renderer) : Prop :=
  edition s1 = edition s2 ∧ chapter s1 = chapter s2 ∧ section s1 = section s2
  ∧ figure_counter s1 = figure_counter s2 ∧ figure_map s1 = figure_map s2.

(** Everything but the figure counter and the figure map agrees. *)
Definition same_outside_numbering (s1 s2 : Renderer) : Prop :=
  margin_anchor_id s1 = margin_anchor_id s2 ∧ margin_id s1 = margin_id s2
  ∧ section_url s1 = section_url s2 ∧ ref_id s1 = ref_id s2
  ∧ edition s1 = edition s2 ∧ chapter s1 = chapter s2
  ∧ section s1 = section s2.

(** The numbers [collect_figures] is to store on a list of figures taken in
    pre-order, when the counter stands at [k]. *)
Fixpoint expected_numbers (self : Renderer) (k : nat) (figs : list Token)
  : list (option string) :=
  match figs with
  | [] => []
  | f :: rest =>
      if numbered f
      then Some (_format_figure_number self (k + 1))
           :: expected_numbers self (k + 1) rest
      else Some EmptyString :: expected_numbers self k rest
  end.

Definition figures_of_forest (l : list Token) : list Token :=
  filter (fun t => is_figure (token_kind t) = true) (forest_descendants l).

Definition count_numbered (figs : list Token) : nat :=
  length (filter (fun t => numbered t = true) figs).

(** The numbering pass took the figures [before] (in pre-order) from the
    state [self] to the figures [after] and the state [self']: the numbers
    are the expected ones, the same figures are numbered, and the counter
    advanced by the number of numbered figures. *)
Definition numbers_as_expected (self : Renderer) (before after : list Token)
    (self' : Renderer) : Prop :=
  map token_number after
  = expected_numbers self (figure_counter self) before
  ∧ map numbered after = map numbered before
  ∧ figure_counter self' = figure_counter self + count_numbered before.

(** ** Sample values *)

Definition sample_externals : Externals :=
  {| margin_template := fun type content id anchor =>
       "<aside class=" +:+ dq +:+ type +:+ dq +:+ " id=" +:+ dq +:+ "m"
       +:+ pretty id +:+ dq +:+ ">" +:+ content +:+ "</aside>";
     escape_html := fun content => content;
     core_rule := fun head inner =>
       "<" +:+ head +:+ ">" +:+ inner +:+ "</" +:+ head +:+ ">";
     convert_to_morse_code := fun _ => [] |}.

Definition sample_renderer : Renderer :=
  init None None None None (Some "3") (Some "2") (Some "1") None.

Definition sample_world : World := mkWorld sample_renderer [].

Definition text (content : string) : Token := leaf (RawText content).

(** ** Further specification-side definitions *)

(** The figure map [collect_figures] is to build from the figures [figs]
    taken in pre-order, when the counter stands at [k] and the map is [m]:
    a later figure overwrites the entry of an earlier one with the same
    reference identifier. *)
Fixpoint expected_map (self : Renderer) (k : nat) (figs : list Token)
    (m : gmap string string) : gmap string string :=
  match figs with
  | [] => m
  | f :: rest =>
      if numbered f
      then expected_map self (k + 1) rest
             (<[py_str (reference_identifier (token_kind f))
                := _format_figure_number self (k + 1)]> m)
      else expected_map self k rest m
  end.

(** A kind with its [number] attribute blanked. *)
Definition strip_kind (k : Kind) : Kind :=
  match k with
  | Picture i ref text _ => Picture i ref text EmptyString
  | Photo i ref text _ => Photo i ref text EmptyString
  | Table name caption _ => Table name caption None
  | _ => k
  end.

(** A tree with every [number] attribute blanked. *)
Fixpoint strip_numbers (token : Token) : Token :=
  match token with
  | Node k (Some children) => Node (strip_kind k) (Some (map strip_numbers children))
  | Node k None => Node (strip_kind k) None
  end.

(** Everything but the two margin-id counters and the footnotes agrees. *)
Definition same_but_margin_ids (s1 s2 : Renderer) : Prop :=
  section_url s1 = section_url s2 ∧ ref_id s1 = ref_id s2
  ∧ question_renderer s1 = question_renderer s2
  ∧ picture_handler s1 = picture_handler s2
  ∧ photo_handler s1 = photo_handler s2
  ∧ include_handler s1 = include_handler s2
  ∧ edition s1 = edition s2 ∧ chapter s1 = chapter s2
  ∧ section s1 = section s2
  ∧ figure_map s1 = figure_map s2 ∧ figure_counter s1 = figure_counter s2.

(** No footnote of [s1] is missing in [s2]. *)
Definition footnotes_kept (s1 s2 : Renderer) : Prop :=
  ∀ key, is_Some (footnotes s1 !! key) → is_Some (footnotes s2 !! key).

(** The handlers and the footnotes agree. *)
Definition same_handlers (s1 s2 : Renderer) : Prop :=
  question_renderer s1 = question_renderer s2
  ∧ picture_handler s1 = picture_handler s2
  ∧ photo_handler s1 = photo_handler s2
  ∧ include_handler s1 = include_handler s2
  ∧ footnotes s1 = footnotes s2.

(** The state after a thematic break. *)
Definition after_break (w : World) : World :=
  mkWorld (set_margin_anchor_id (margin_anchor_id (instance w) + 1) (instance w))
    (template_calls w).

(** From [w] to [w'] neither counter went down, the template was called
    once for each step of the margin id, and each call got a margin id and
    a margin anchor id between those of [w] (excluded, for the margin id)
    and those of [w']. *)
Definition counted_run (w w' : World) : Prop :=
  ∃ new, template_calls w' = template_calls w ++ new
         ∧ margin_id (instance w') = margin_id (instance w) + length new
         ∧ (margin_anchor_id (instance w) ≤ margin_anchor_id (instance w'))%nat
         ∧ Forall (λ c, (margin_id (instance w) < call_id c
                         ≤ margin_id (instance w'))%nat
                        ∧ (margin_anchor_id (instance w)
                           ≤ call_margin_anchor_id c
                           ≤ margin_anchor_id (instance w'))%nat) new.

(** The same for a rendering that raised: the margin id may have advanced
    further than the template was called. *)
Definition counted_calls (w w' : World) : Prop :=
  ∃ new, template_calls w' = template_calls w ++ new
         ∧ (margin_id (instance w) + length new ≤ margin_id (instance w'))%nat
         ∧ (margin_anchor_id (instance w) ≤ margin_anchor_id (instance w'))%nat
         ∧ Forall (λ c, (margin_id (instance w) < call_id c
                         ≤ margin_id (instance w'))%nat
                        ∧ (margin_anchor_id (instance w)
                           ≤ call_margin_anchor_id c
                           ≤ margin_anchor_id (instance w'))%nat) new.

(** * Properties *)

(** ** Induction on tokens *)

Lemma Token_ind (P : Token -> Prop) :
  (forall k, P (Node k None)) ->
  (forall k cs, Forall P cs -> P (Node k (Some cs))) ->
  forall t, P t.
Proof.
  intros Hleaf Hnode. fix IH 1. intros [k [cs|]]; [|apply Hleaf].
  apply Hnode. induction cs as [|c cs IHcs]; constructor;
    [apply IH | apply IHcs].
Qed.

(** ** Units *)

(** C9. A Unit token renders as value, separator, prefix and unit, where a
    unit of the substitution table is replaced by its glyph (Ohm becomes the
    Greek capital omega) and the separator is the narrow no-break space
    (character reference 8239), except for the units degree and percent,
    which follow the value directly.  Value 5 with unit Ohm gives the glyph
    after a narrow no-break space, value 10 with unit percent has no
    space. *)
Theorem unit_rendering (ext : Externals) (mode : Mode) (w : World)
    (value prefix unit : string) (cs : option (list Token)) :
  (units !! "Ohm" = Some "Ω")
  ∧ (∀ glyph, units !! unit = Some glyph →
       unit ≠ "°" → unit ≠ "%" →
       render ext mode (Node (Unit value prefix unit) cs) w
       = (inr (Some (value +:+ "&#8239;" +:+ prefix +:+ glyph)), w))
  ∧ (units !! unit = None → unit ≠ "°" → unit ≠ "%" →
       render ext mode (Node (Unit value prefix unit) cs) w
       = (inr (Some (value +:+ "&#8239;" +:+ prefix +:+ unit)), w))
  ∧ (unit = "°" ∨ unit = "%" →
       render ext mode (Node (Unit value prefix unit) cs) w
       = (inr (Some (value +:+ prefix +:+ unit)), w))
  ∧ render ext mode (Node (Unit "5" EmptyString "Ohm") cs) w
    = (inr (Some "5&#8239;Ω"), w)
  ∧ render ext mode (Node (Unit "10" EmptyString "%") cs) w
    = (inr (Some "10%"), w).
Proof.
  assert (Hsep : ∀ u, u ≠ "°" → u ≠ "%" → bool_decide (u ∈ ["°"; "%"]) = false).
  { intros u H1 H2. apply bool_decide_eq_false.
    rewrite !elem_of_cons, elem_of_nil. tauto. }
  split; [reflexivity|].
  split.
  { intros glyph Hg H1 H2. cbn. unfold ret, render_unit, convert_unit_helper.
    by rewrite Hg, Hsep. }
  split.
  { intros Hg H1 H2. cbn. unfold ret, render_unit, convert_unit_helper.
    by rewrite Hg, Hsep. }
  split.
  { intros [-> | ->]; reflexivity. }
  split; reflexivity.
Qed.

Lemma unit_rendering_witness :
  render sample_externals DocumentMode
    (leaf (Unit "230" "k" "V")) sample_world
  = (inr (Some "230&#8239;kV"), sample_world)
  ∧ render sample_externals DocumentMode
      (leaf (Unit "47" "k" "Ohm")) sample_world
    = (inr (Some "47&#8239;kΩ"), sample_world)
  ∧ render sample_externals DocumentMode
      (leaf (Unit "90" EmptyString "°")) sample_world
    = (inr (Some "90°"), sample_world).
Proof.
  split; [|split].
  - destruct (unit_rendering sample_externals DocumentMode sample_world
                "230" "k" "V" None) as (_ & _ & H & _).
    apply H; [reflexivity | discriminate | discriminate].
  - destruct (unit_rendering sample_externals DocumentMode sample_world
                "47" "k" "Ohm" None) as (_ & H & _).
    apply H; [reflexivity | discriminate | discriminate].
  - destruct (unit_rendering sample_externals DocumentMode sample_world
                "90" EmptyString "°" None) as (_ & _ & _ & H & _).
    apply H. by left.
Defined.

(** ** References *)

(** C6. Rendering a Reference never raises and leaves the state as it is.
    The result is a hyperlink to the section URL followed by the anchor
    ref_ and the identifier, with the highlightRef callback on the
    identifier; its text is the question mark when the identifier is no key
    of the figure map, and the mapped number when it is. *)
Theorem reference_rendering (ext : Externals) (mode : Mode) (w : World)
    (first : string) (cs : option (list Token)) :
  (figure_map (instance w) !! first = None →
     render ext mode (Node (References first) cs) w
     = (inr (Some (reference_link (instance w) first "?")), w))
  ∧ (∀ num, figure_map (instance w) !! first = Some num →
       render ext mode (Node (References first) cs) w
       = (inr (Some (reference_link (instance w) first num)), w)).
Proof.
  split.
  - intros Hnone. cbn. unfold bind, get_self, ret, render_references.
    by rewrite Hnone.
  - intros num Hsome. cbn. unfold bind, get_self, ret, render_references.
    by rewrite Hsome.
Qed.

Lemma reference_rendering_witness :
  render sample_externals DocumentMode (leaf (References "fig-a")) sample_world
  = (inr (Some ("<a href=" +:+ dq +:+ "section.html#ref_fig-a" +:+ dq
                +:+ " onclick=" +:+ dq +:+ "highlightRef('fig-a');" +:+ dq
                +:+ ">?</a>")), sample_world).
Proof.
  destruct (reference_rendering sample_externals DocumentMode sample_world
              "fig-a" None) as [H _].
  apply H. reflexivity.
Defined.

(** The numbering pass, then the rendering of a reference to a numbered
    picture. *)
Example numbering_then_reference :
  let document :=
    node (Document ∅)
      [leaf (Picture "a" (Some "p1") "A" EmptyString);
       node (Table (Some "t1") "T" None) [];
       leaf (References "p1")] in
  let numbered_state := (collect_figures document sample_renderer).2 in
  map_to_list (figure_map numbered_state)
  ≡ₚ [("p1", "3-2.1.1"); ("t1", "3-2.1.2")]
  ∧ (render sample_externals DocumentMode (leaf (References "p1"))
       (mkWorld numbered_state [])).1
    = inr (Some (reference_link numbered_state "p1" "3-2.1.1")).
Proof.
  split; [|reflexivity].
  vm_compute. apply Permutation_swap.
Qed.

(** ** Pictures in the two modes *)

(** C7. A Picture renders, in both modes, to the same figure element: the
    opening tag with the class picture and the reference id as id and name,
    a content, the caption Abbildung number: text, and the closing tag.  In
    slide mode the content is the img element alone, with no a element
    around it (the figure-link helper returns its text argument); in
    document mode the content is that img element inside an a element that
    links to the asset pictures/id.svg.  Nothing else differs, and the
    state is left as it is. *)
Theorem picture_link_by_mode (ext : Externals) (w : World)
    (id : string) (ref : option string) (text number : string)
    (cs : option (list Token)) :
  let alt_text :=
    match picture_handler (instance w) with
    | Some handler => match handler id with Some a => a | None => "None" end
    | None => EmptyString
    end in
  let url := "pictures/" +:+ id +:+ ".svg" in
  let ref_text := match ref with Some r => r | None => "None" end in
  let img :=
    nl +:+ "                <img src=" +:+ dq +:+ url +:+ dq +:+ " alt=" +:+ dq
    +:+ alt_text +:+ dq +:+ ">" +:+ nl +:+ "                " in
  let link :=
    nl +:+ "                <a href=" +:+ dq +:+ url +:+ dq +:+ ">" +:+ img
    +:+ "</a>" +:+ nl +:+ "                " in
  let figure content :=
    nl +:+ "                <figure class=" +:+ dq +:+ "picture" +:+ dq
    +:+ " id=" +:+ dq +:+ "ref_" +:+ ref_text +:+ dq +:+ " name=" +:+ dq
    +:+ ref_text +:+ dq +:+ ">" +:+ nl
    +:+ "                    " +:+ content +:+ nl
    +:+ "                    <figcaption>Abbildung " +:+ number +:+ ": "
    +:+ text +:+ "</figcaption>" +:+ nl
    +:+ "                </figure>" +:+ nl +:+ "                " in
  render ext SlideMode (Node (Picture id ref text number) cs) w
  = (inr (Some (figure img)), w)
  ∧ render ext DocumentMode (Node (Picture id ref text number) cs) w
    = (inr (Some (figure link)), w)
  ∧ (∀ u t, render_figure_link_helper SlideMode u t = t).
Proof.
  intros alt_text url ref_text img link figure.
  subst alt_text url ref_text img link figure.
  cbn [render]. unfold bind, get_self, ret.
  unfold render_picture, render_figure_helper, render_img_helper,
    render_figure_link_helper, py_str, sp16, sp20.
  destruct (picture_handler (instance w)) as [handler|];
    [destruct (handler id)|]; destruct ref; repeat split.
Qed.

(** ** The numbering pass *)

Lemma collect_node (k : Kind) (cs : list Token) (self : Renderer) :
  _collect_figures_recursive (Node k (Some cs)) self
  = let '(cs', self') := collect_children cs self in (Node k (Some cs'), self').
Proof. reflexivity. Qed.

Lemma collect_leaf (k : Kind) (self : Renderer) :
  _collect_figures_recursive (Node k None) self = (Node k None, self).
Proof. reflexivity. Qed.

Lemma collect_cons (child : Token) (rest : list Token) (self : Renderer) :
  collect_children (child :: rest) self
  = let '(n, self1) := number_child child self in
    let '(child', self2) := _collect_figures_recursive child self1 in
    let '(rest', self3) := collect_children rest self2 in
    (apply_number n child' :: rest', self3).
Proof. reflexivity. Qed.

(** A property of the instance that every single numbering step keeps is
    kept by the traversal. *)
Lemma collect_children_keeps (I : Renderer → Prop) :
  (∀ child self, I self → I (number_child child self).2) →
  ∀ cs, Forall (λ t, ∀ self, I self → I (_collect_figures_recursive t self).2) cs →
  ∀ self, I self → I (collect_children cs self).2.
Proof.
  intros Hstep cs Hcs. induction Hcs as [|c cs Hc _ IH]; intros self HI.
  - exact HI.
  - rewrite collect_cons.
    pose proof (Hstep c self HI) as H1.
    destruct (number_child c self) as [n self1]. simpl in H1.
    pose proof (Hc self1 H1) as H2.
    destruct (_collect_figures_recursive c self1) as [c' self2]. simpl in H2.
    pose proof (IH self2 H2) as H3.
    destruct (collect_children cs self2) as [rest' self3]. exact H3.
Qed.

Lemma collect_keeps (I : Renderer → Prop) :
  (∀ child self, I self → I (number_child child self).2) →
  ∀ t self, I self → I (_collect_figures_recursive t self).2.
Proof.
  intros Hstep t. induction t as [k|k cs IH] using Token_ind; intros self HI.
  - exact HI.
  - rewrite collect_node.
    pose proof (collect_children_keeps I Hstep cs IH self HI) as H.
    destruct (collect_children cs self) as [cs' self']. exact H.
Qed.

Lemma number_child_outside (child : Token) (self : Renderer) :
  same_outside_numbering self (number_child child self).2.
Proof.
  unfold number_child, same_outside_numbering.
  destruct (is_figure _); [destruct (truthy _)|]; simpl; tauto.
Qed.

Lemma collect_outside (t : Token) (self : Renderer) :
  same_outside_numbering self (_collect_figures_recursive t self).2.
Proof.
  apply (collect_keeps (same_outside_numbering self)).
  - intros child s Hs. pose proof (number_child_outside child s) as H.
    unfold same_outside_numbering in *. intuition congruence.
  - unfold same_outside_numbering. tauto.
Qed.

Lemma format_same_context (s1 s2 : Renderer) (counter : nat) :
  edition s1 = edition s2 → chapter s1 = chapter s2 → section s1 = section s2 →
  _format_figure_number s1 counter = _format_figure_number s2 counter.
Proof. unfold _format_figure_number. by intros -> -> ->. Qed.

Lemma number_child_same (child : Token) (s1 s2 : Renderer) :
  same_numbering s1 s2 →
  (number_child child s1).1 = (number_child child s2).1
  ∧ same_numbering (number_child child s1).2 (number_child child s2).2.
Proof.
  intros (He & Hc & Hs & Hn & Hm). unfold number_child.
  destruct (is_figure _); [destruct (truthy _)|]; simpl;
    unfold same_numbering; simpl; rewrite ?Hn, ?Hm.
  - rewrite (format_same_context (set_figure_counter (figure_counter s2 + 1) s1)
               (set_figure_counter (figure_counter s2 + 1) s2)) by done.
    done.
  - done.
  - done.
Qed.

Lemma collect_children_same (cs : list Token) :
  Forall (λ t, ∀ s1 s2, same_numbering s1 s2 →
            (_collect_figures_recursive t s1).1 = (_collect_figures_recursive t s2).1
            ∧ same_numbering (_collect_figures_recursive t s1).2
                (_collect_figures_recursive t s2).2) cs →
  ∀ s1 s2, same_numbering s1 s2 →
    (collect_children cs s1).1 = (collect_children cs s2).1
    ∧ same_numbering (collect_children cs s1).2 (collect_children cs s2).2.
Proof.
  intros Hcs. induction Hcs as [|c cs Hc _ IH]; intros s1 s2 Hs.
  - by split.
  - rewrite !collect_cons.
    destruct (number_child_same c s1 s2 Hs) as [Hn Hs1].
    destruct (number_child c s1) as [n1 a1], (number_child c s2) as [n2 a2].
    simpl in Hn, Hs1. subst n2.
    destruct (Hc a1 a2 Hs1) as [Hc' Hs2].
    destruct (_collect_figures_recursive c a1) as [c1 b1],
             (_collect_figures_recursive c a2) as [c2 b2].
    simpl in Hc', Hs2. subst c2.
    destruct (IH b1 b2 Hs2) as [Hr Hs3].
    destruct (collect_children cs b1) as [r1 d1],
             (collect_children cs b2) as [r2 d2].
    simpl in *. by subst r2.
Qed.

Lemma collect_same (t : Token) (s1 s2 : Renderer) :
  same_numbering s1 s2 →
  (_collect_figures_recursive t s1).1 = (_collect_figures_recursive t s2).1
  ∧ same_numbering (_collect_figures_recursive t s1).2
      (_collect_figures_recursive t s2).2.
Proof.
  revert s1 s2. induction t as [k|k cs IH] using Token_ind; intros s1 s2 Hs.
  - by rewrite !collect_leaf.
  - rewrite !collect_node.
    destruct (collect_children_same cs IH s1 s2 Hs) as [H1 H2].
    destruct (collect_children cs s1) as [r1 d1],
             (collect_children cs s2) as [r2 d2].
    simpl in *. by subst r2.
Qed.

(** C2 (as stated) fails: an instance that has rendered one margin tag and
    one thematic break has both margin-id counters at 1, and they are still
    at 1 after [collect_figures], while a fresh instance has them at 0. *)
Lemma collect_figures_keeps_margin_ids :
  let used := (render sample_externals DocumentMode
                 (node (Document ∅) [leaf ThematicBreak; node (Tag "webmargin") []])
                 sample_world).2 in
  let after := (collect_figures (node (Document ∅) []) (instance used)).2 in
  margin_id after = 1 ∧ margin_anchor_id after = 1
  ∧ margin_id after ≠ margin_id sample_renderer
  ∧ margin_anchor_id after ≠ margin_anchor_id sample_renderer.
Proof. vm_compute. repeat split; discriminate. Qed.

(** ** Numbers in pre-order *)

Lemma descendants_node (k : Kind) (cs : list Token) :
  descendants (Node k (Some cs)) = forest_descendants cs.
Proof. reflexivity. Qed.

Lemma figures_node (k : Kind) (cs : list Token) :
  figures (Node k (Some cs)) = figures_of_forest cs.
Proof. reflexivity. Qed.

Lemma figures_of_forest_cons (c : Token) (rest : list Token) :
  figures_of_forest (c :: rest)
  = (if is_figure (token_kind c) then [c] else [])
    ++ figures c ++ figures_of_forest rest.
Proof.
  unfold figures_of_forest, figures. simpl forest_descendants.
  rewrite filter_cons, filter_app.
  destruct (is_figure (token_kind c)); by case_decide.
Qed.

Lemma set_number_kind (n : string) (t : Token) :
  is_figure (token_kind (set_number n t)) = is_figure (token_kind t)
  ∧ reference_identifier (token_kind (set_number n t))
    = reference_identifier (token_kind t)
  ∧ descendants (set_number n t) = descendants t
  ∧ (is_figure (token_kind t) = true → token_number (set_number n t) = Some n).
Proof. destruct t as [[] cs]; simpl; auto; repeat split; discriminate. Qed.

Lemma collect_kind (t : Token) (self : Renderer) :
  token_kind (_collect_figures_recursive t self).1 = token_kind t.
Proof.
  destruct t as [k [cs|]]; [|reflexivity].
  rewrite collect_node. by destruct (collect_children cs self).
Qed.

Lemma truthy_figure_ref_id (k : Kind) :
  is_figure k = true →
  truthy (figure_ref_id k) = truthy (reference_identifier k)
  ∧ (truthy (figure_ref_id k) = true → figure_ref_id k = reference_identifier k).
Proof.
  destruct k; try discriminate; intros _; simpl; unfold py_or.
  - destruct (truthy ref) eqn:E; auto. split; [done | discriminate].
  - destruct (truthy ref) eqn:E; auto. split; [done | discriminate].
  - done.
Qed.

Lemma expected_numbers_context (s1 s2 : Renderer) (k : nat) (figs : list Token) :
  edition s1 = edition s2 → chapter s1 = chapter s2 → section s1 = section s2 →
  expected_numbers s1 k figs = expected_numbers s2 k figs.
Proof.
  intros He Hc Hs. revert k. induction figs as [|f figs IH]; intros k; [done|].
  simpl. rewrite !IH. by rewrite (format_same_context s1 s2).
Qed.

Lemma expected_numbers_app (self : Renderer) (k : nat) (a b : list Token) :
  expected_numbers self k (a ++ b)
  = expected_numbers self k a ++ expected_numbers self (k + count_numbered a) b.
Proof.
  revert k. induction a as [|f a IH]; intros k.
  - simpl. by rewrite Nat.add_0_r.
  - unfold count_numbered. simpl. rewrite filter_cons.
    destruct (numbered f) eqn:E.
    + rewrite decide_True by done. simpl. rewrite IH. unfold count_numbered.
      by replace (k + 1 + length (filter (λ t, numbered t = true) a))
        with (k + S (length (filter (λ t, numbered t = true) a))) by lia.
    + rewrite decide_False by (by intros ?). simpl. by rewrite IH.
Qed.

Lemma count_numbered_app (a b : list Token) :
  count_numbered (a ++ b) = count_numbered a + count_numbered b.
Proof. unfold count_numbered. by rewrite filter_app, length_app. Qed.

Lemma numbers_as_expected_app (s0 s1 s2 : Renderer) (a a' b b' : list Token) :
  same_outside_numbering s0 s1 →
  numbers_as_expected s0 a a' s1 →
  numbers_as_expected s1 b b' s2 →
  numbers_as_expected s0 (a ++ b) (a' ++ b') s2.
Proof.
  intros (_ & _ & _ & _ & He & Hc & Hs) (Ha1 & Ha2 & Ha3) (Hb1 & Hb2 & Hb3).
  unfold numbers_as_expected.
  rewrite !map_app, expected_numbers_app, count_numbered_app, Ha1, Ha2, Hb1, Hb2.
  rewrite (expected_numbers_context s1 s0) by done.
  rewrite Ha3, Hb3. repeat split; auto. lia.
Qed.

Lemma numbered_kind (t t' : Token) :
  token_kind t' = token_kind t → numbered t' = numbered t.
Proof. unfold numbered. by intros ->. Qed.

Lemma number_child_head (child child' : Token) (self : Renderer) :
  token_kind child' = token_kind child →
  numbers_as_expected self
    (if is_figure (token_kind child) then [child] else [])
    (if is_figure (token_kind child)
     then [apply_number (number_child child self).1 child'] else [])
    (number_child child self).2
  ∧ token_kind (apply_number (number_child child self).1 child')
    = token_kind (apply_number (number_child child self).1 child)
  ∧ is_figure (token_kind (apply_number (number_child child self).1 child'))
    = is_figure (token_kind child)
  ∧ descendants (apply_number (number_child child self).1 child')
    = descendants child'.
Proof.
  intros Hkind. unfold number_child, numbers_as_expected, count_numbered.
  destruct (is_figure (token_kind child)) eqn:Hfig.
  - destruct (truthy_figure_ref_id _ Hfig) as [Ht _].
    assert (Hfig' : is_figure (token_kind child') = true) by by rewrite Hkind.
    assert (Hnum : ∀ n, numbered (set_number n child') = numbered child).
    { intros n. unfold numbered.
      destruct (set_number_kind n child') as (-> & -> & _). by rewrite Hkind. }
    assert (Hsame : ∀ n, token_kind (set_number n child')
                         = token_kind (set_number n child)).
    { intros n. destruct child as [k cs], child' as [k' cs'].
      simpl in Hkind. subst k'. by destruct k. }
    destruct (truthy (figure_ref_id (token_kind child))) eqn:Hid; simpl.
    + assert (Hn : numbered child = true) by (unfold numbered; by rewrite Hfig, <- Ht).
      rewrite Hn, filter_cons, decide_True by done. simpl.
      destruct (set_number_kind
                  (_format_figure_number
                     (set_figure_counter (figure_counter self + 1) self)
                     (figure_counter self + 1)) child') as (Ha & _ & Hb & Hc).
      rewrite Hc, Hnum, Ha, Hfig', Hb by done.
      rewrite (format_same_context
                 (set_figure_counter (figure_counter self + 1) self) self)
        by done.
      rewrite Hsame, Hn. repeat split; auto.
    + assert (Hn : numbered child = false) by (unfold numbered; by rewrite Hfig, <- Ht).
      rewrite filter_cons, decide_False by (rewrite Hn; discriminate).
      rewrite Hn. simpl.
      destruct (set_number_kind EmptyString child') as (Ha & _ & Hb & Hc).
      rewrite Hc, Hnum, Ha, Hfig', Hb, Hsame, Hn by done.
      repeat split; auto.
  - simpl. rewrite Hkind, Hfig. repeat split; auto.
Qed.

Lemma numbers_as_expected_nil (self : Renderer) :
  numbers_as_expected self [] [] self.
Proof. unfold numbers_as_expected, count_numbered. simpl. auto. Qed.

Lemma same_outside_numbering_trans (a b c : Renderer) :
  same_outside_numbering a b → same_outside_numbering b c →
  same_outside_numbering a c.
Proof. unfold same_outside_numbering. intuition congruence. Qed.

Lemma collect_children_numbers (cs : list Token) :
  Forall (λ t, ∀ self,
            numbers_as_expected self (figures t)
              (figures (_collect_figures_recursive t self).1)
              (_collect_figures_recursive t self).2) cs →
  ∀ self,
    numbers_as_expected self (figures_of_forest cs)
      (figures_of_forest (collect_children cs self).1)
      (collect_children cs self).2
    ∧ same_outside_numbering self (collect_children cs self).2.
Proof.
  intros Hcs. induction Hcs as [|c cs Hc _ IH]; intros self.
  - split; [apply numbers_as_expected_nil|].
    unfold same_outside_numbering; tauto.
  - rewrite collect_cons.
    pose proof (number_child_outside c self) as Ho1.
    pose proof (λ c', number_child_head c c' self) as Hhead.
    destruct (number_child c self) as [n self1]. simpl in Ho1, Hhead.
    pose proof (collect_outside c self1) as Ho2.
    pose proof (Hc self1) as Hmid.
    specialize (Hhead (_collect_figures_recursive c self1).1
                  (collect_kind c self1)).
    destruct (_collect_figures_recursive c self1) as [c' self2].
    simpl in Ho2, Hmid, Hhead.
    destruct (IH self2) as [Hrest Ho3].
    destruct (collect_children cs self2) as [rest' self3].
    simpl in Hrest, Ho3 |- *.
    destruct Hhead as (Hh & _ & Hfig & Hdesc).
    split.
    + rewrite !figures_of_forest_cons, Hfig.
      replace (figures (apply_number n c')) with (figures c')
        by (unfold figures; by rewrite Hdesc).
      eapply numbers_as_expected_app; [exact Ho1 | exact Hh |].
      eapply numbers_as_expected_app; [exact Ho2 | exact Hmid | exact Hrest].
    + eauto using same_outside_numbering_trans.
Qed.

Lemma collect_numbers (t : Token) (self : Renderer) :
  numbers_as_expected self (figures t)
    (figures (_collect_figures_recursive t self).1)
    (_collect_figures_recursive t self).2.
Proof.
  revert self. induction t as [k|k cs IH] using Token_ind; intros self.
  - rewrite collect_leaf. apply numbers_as_expected_nil.
  - rewrite collect_node.
    destruct (collect_children_numbers cs IH self) as [H _].
    destruct (collect_children cs self) as [cs' self']. exact H.
Qed.



Lemma counter_at_numbered (a b : list Token) (i : nat) :
  map numbered a = map numbered b → counter_at a i = counter_at b i.
Proof.
  unfold counter_at. generalize (S i) as n. revert b.
  induction a as [|x a IH]; intros [|y b] n Hab; try discriminate; [done|].
  injection Hab as Hxy Hab. destruct n as [|n]; [done|]. simpl.
  rewrite !filter_cons. rewrite <- Hxy. specialize (IH b n Hab).
  case_decide; simpl; by rewrite IH.
Qed.

Lemma expected_numbers_lookup (self : Renderer) (figs : list Token) :
  ∀ (k i : nat) (f : Token),
    figs !! i = Some f →
    expected_numbers self k figs !! i
    = Some (if numbered f
            then Some (_format_figure_number self (k + counter_at figs i))
            else Some EmptyString).
Proof.
  induction figs as [|g figs IH]; intros k i f Hf; [done|].
  destruct i as [|i].
  - injection Hf as ->. simpl. unfold counter_at. simpl. rewrite filter_cons.
    destruct (numbered f) eqn:E; [|done].
    by rewrite decide_True by done.
  - simpl in Hf. simpl expected_numbers.
    unfold counter_at. simpl take. rewrite filter_cons.
    destruct (numbered g) eqn:E.
    + rewrite decide_True by done. simpl. rewrite (IH _ _ _ Hf).
      unfold counter_at.
      by replace (k + 1 + length (filter (λ t, numbered t = true) (take (S i) figs)))
        with (k + S (length (filter (λ t, numbered t = true) (take (S i) figs))))
        by lia.
    + rewrite decide_False by (by intros ?). simpl. by rewrite (IH _ _ _ Hf).
Qed.

(** What [collect_figures] writes on the figures of a document, by position
    in the pre-order listing. *)
Lemma collect_figures_numbers (document : Token) (self : Renderer) :
  let figs := figures document in
  let figs' := figures (collect_figures document self).1 in
  length figs' = length figs
  ∧ map numbered figs' = map numbered figs
  ∧ figure_counter (collect_figures document self).2 = count_numbered figs
  ∧ ∀ i f', figs' !! i = Some f' →
      token_number f'
      = if numbered f'
        then Some (_format_figure_number self (counter_at figs' i))
        else Some EmptyString.
Proof.
  intros figs figs'. unfold collect_figures in *.
  set (start := set_figure_map ∅ (set_figure_counter 0 self)) in *.
  destruct (collect_numbers document start) as (Hnum & Hsame & Hcount).
  fold figs figs' in Hnum, Hsame.
  change (figure_counter start) with 0 in Hnum, Hcount.
  assert (Hlen : length figs' = length figs).
  { by rewrite <- (length_map numbered figs'), Hsame, length_map. }
  repeat split; auto.
  intros i f' Hf'.
  assert (is_Some (figs !! i)) as [f Hf].
  { apply lookup_lt_is_Some. rewrite <- Hlen. by eapply lookup_lt_Some. }
  assert (Hnf : numbered f' = numbered f).
  { apply (f_equal (λ l, l !! i)) in Hsame.
    rewrite !list_lookup_fmap, Hf, Hf' in Hsame. by injection Hsame. }
  apply (f_equal (λ l, l !! i)) in Hnum.
  rewrite list_lookup_fmap, Hf', (expected_numbers_lookup start figs 0 i f Hf) in Hnum.
  simpl in Hnum. injection Hnum as ->.
  rewrite Hnf, (counter_at_numbered figs' figs i Hsame).
  by rewrite (format_same_context start self).
Qed.







(** ** Figures without a reference identifier *)





(** ** Joining the rendered children *)

Lemma bind_run {A B : Type} (m : Py A) (k : A → Py B) (w : World) :
  bind m k w
  = match m w with
    | (inr a, w') => k a w'
    | (inl e, w') => (inl e, w')
    end.
Proof. reflexivity. Qed.

Lemma mapM_cons {A B : Type} (f : A → Py B) (a : A) (l : list A) (w : World) :
  mapM f (a :: l) w
  = match f a w with
    | (inr b, w1) =>
        match mapM f l w1 with
        | (inr bs, w2) => (inr (b :: bs), w2)
        | (inl e, w2) => (inl e, w2)
        end
    | (inl e, w1) => (inl e, w1)
    end.
Proof.
  change (mapM f (a :: l))
    with (bind (f a) (λ b, bind (mapM f l) (λ bs, ret (b :: bs)))).
  rewrite bind_run. destruct (f a w) as [[e|b] w1]; [done|].
  rewrite bind_run. by destruct (mapM f l w1) as [[e|bs] w2].
Qed.

Lemma mapM_app {A B : Type} (f : A → Py B) (l1 l2 : list A) (w : World) :
  mapM f (l1 ++ l2) w
  = match mapM f l1 w with
    | (inr r1, w1) =>
        match mapM f l2 w1 with
        | (inr r2, w2) => (inr (r1 ++ r2), w2)
        | (inl e, w2) => (inl e, w2)
        end
    | (inl e, w1) => (inl e, w1)
    end.
Proof.
  revert w. induction l1 as [|a l1 IH]; intros w.
  - simpl. unfold ret. by destruct (mapM f l2 w) as [[e|r2] w2].
  - rewrite <- app_comm_cons, !mapM_cons.
    destruct (f a w) as [[e|b] w']; [done|]. rewrite IH.
    destruct (mapM f l1 w') as [[e|r1] w1]; [done|].
    by destruct (mapM f l2 w1) as [[e|r2] w2].
Qed.

Lemma filter_not_none_app (a b : list (option string)) :
  filter_not_none (a ++ b) = filter_not_none a ++ filter_not_none b.
Proof. unfold filter_not_none. apply omap_app. Qed.

(** A child whose rule returns [None] and leaves the state alone can be
    removed from the list of children without changing what [render_inner]
    returns. *)
Lemma render_inner_absent (render : Token → Py (option string)) (t : Token)
    (l1 l2 : list Token) (base : string) (w : World) :
  (∀ w', render t w' = (inr None, w')) →
  render_inner render (Some (l1 ++ t :: l2)) base w
  = render_inner render (Some (l1 ++ l2)) base w.
Proof.
  intros Habsent. unfold render_inner. rewrite !bind_run, !mapM_app.
  destruct (mapM render l1 w) as [[e|r1] w1]; [done|].
  rewrite mapM_cons, Habsent.
  destruct (mapM render l2 w1) as [[e|r2] w2]; [done|].
  unfold ret. by rewrite !filter_not_none_app.
Qed.

(** A child whose rule returns a string and leaves the state alone takes a
    place of its own in the list that is joined. *)
Lemma render_inner_present (render : Token → Py (option string)) (t : Token)
    (s : string) (l1 l2 : list Token) (base : string) (w : World) :
  (∀ w', render t w' = (inr (Some s), w')) →
  render_inner render (Some (l1 ++ t :: l2)) base w
  = match mapM render l1 w with
    | (inr r1, w1) =>
        match mapM render l2 w1 with
        | (inr r2, w2) =>
            (inr (str_join base
                    (filter_not_none r1 ++ s :: filter_not_none r2)), w2)
        | (inl e, w2) => (inl e, w2)
        end
    | (inl e, w1) => (inl e, w1)
    end.
Proof.
  intros Hpresent. unfold render_inner. rewrite !bind_run, !mapM_app.
  destruct (mapM render l1 w) as [[e|r1] w1]; [done|].
  rewrite mapM_cons, Hpresent.
  destruct (mapM render l2 w1) as [[e|r2] w2]; [done|].
  unfold ret. by rewrite !filter_not_none_app.
Qed.

Lemma string_app_nil_r (s : string) : s +:+ EmptyString = s.
Proof.
  induction s as [|c s IH]; [done|].
  change (String c (s +:+ EmptyString) = String c s). by rewrite IH.
Qed.

Lemma str_join_empty_base (l : list string) :
  str_join EmptyString l = foldr String.app EmptyString l.
Proof.
  induction l as [|x l IH]; [done|].
  simpl. destruct l as [|y l]; [by rewrite string_app_nil_r|].
  by rewrite IH.
Qed.

Lemma str_join_empty_element (a b : list string) :
  str_join EmptyString (a ++ EmptyString :: b) = str_join EmptyString (a ++ b).
Proof. rewrite !str_join_empty_base, !foldr_app. reflexivity. Qed.

(** ** Suppressed tokens *)

(** C8. A BlockComment anywhere in a list of children changes nothing in
    what the parent joins: the result and the state are those of the list
    without it, whatever the separator.  A TableBody whose children are
    absent or empty renders to the absent result, and a Table renders the
    same with or without such a body among its children. *)
Theorem suppressed_nodes_leave_no_trace (ext : Externals) (mode : Mode)
    (w : World) (l1 l2 : list Token) (base : string)
    (cs : option (list Token)) (header : bool)
    (name number : option string) (caption : string) :
  render ext mode (Node BlockComment cs) w = (inr None, w)
  ∧ render_inner (render ext mode) (Some (l1 ++ Node BlockComment cs :: l2))
      base w
    = render_inner (render ext mode) (Some (l1 ++ l2)) base w
  ∧ render ext mode (Node (TableBody header) None) w = (inr None, w)
  ∧ render ext mode (Node (TableBody header) (Some [])) w = (inr None, w)
  ∧ render ext mode
      (Node (Table name caption number)
         (Some (l1 ++ Node (TableBody header) (Some []) :: l2))) w
    = render ext mode (Node (Table name caption number) (Some (l1 ++ l2))) w.
Proof.
  split; [reflexivity|].
  split; [by apply render_inner_absent|].
  split; [reflexivity|].
  split; [reflexivity|].
  cbn [render]. unfold render_table.
  rewrite !bind_run. by rewrite render_inner_absent.
Qed.

(** ** The latexonly and webonly tags *)

(** C1 (as stated) fails: the rule of a latexonly tag returns the empty
    string, not the absent result, so the tag is not discarded by the
    joining of the children.  Between two texts under the document root,
    whose separator is the line break, it leaves an empty line that is not
    there without it. *)
Lemma latexonly_is_not_absent :
  render sample_externals DocumentMode
    (node (Tag "latexonly") [text "x"]) sample_world
  = (inr (Some EmptyString), sample_world)
  ∧ render sample_externals DocumentMode
      (node (Tag "latexonly") [text "x"]) sample_world
    ≠ (inr None, sample_world)
  ∧ render sample_externals DocumentMode
      (node (Document ∅) [text "a"; node (Tag "latexonly") [text "x"]; text "b"])
      sample_world
    = (inr (Some ("a" +:+ nl +:+ nl +:+ "b" +:+ nl)), sample_world)
  ∧ render sample_externals DocumentMode
      (node (Document ∅) [text "a"; text "b"]) sample_world
    = (inr (Some ("a" +:+ nl +:+ "b" +:+ nl)), sample_world)
  ∧ render sample_externals DocumentMode
      (node (Document ∅) [text "a"; node (Tag "latexonly") [text "x"]; text "b"])
      sample_world
    ≠ render sample_externals DocumentMode
        (node (Document ∅) [text "a"; text "b"]) sample_world.
Proof.
  split; [reflexivity|].
  split; [discriminate|].
  split; [reflexivity|].
  split; [reflexivity|].
  vm_compute. discriminate.
Qed.

(** C1 (as amended). In document mode the rule of a latexonly tag returns
    the empty string and leaves the state alone: the tag is kept by the
    joining of the children, where it takes a place of its own with zero
    characters, so that the separator stands on both sides of it; joined
    with the empty separator the result is that of the list without the
    tag.  The rule of a webonly tag returns the rendered children, joined
    with the empty separator, with nothing around them. *)
Theorem latexonly_empty_webonly_unwrapped (ext : Externals) (w : World)
    (cs : option (list Token)) (l1 l2 : list Token) (base : string) :
  render ext DocumentMode (Node (Tag "latexonly") cs) w
  = (inr (Some EmptyString), w)
  ∧ render_inner (render ext DocumentMode)
      (Some (l1 ++ Node (Tag "latexonly") cs :: l2)) base w
    = match mapM (render ext DocumentMode) l1 w with
      | (inr r1, w1) =>
          match mapM (render ext DocumentMode) l2 w1 with
          | (inr r2, w2) =>
              (inr (str_join base
                      (filter_not_none r1 ++ EmptyString :: filter_not_none r2)),
               w2)
          | (inl e, w2) => (inl e, w2)
          end
      | (inl e, w1) => (inl e, w1)
      end
  ∧ render_inner (render ext DocumentMode)
      (Some (l1 ++ Node (Tag "latexonly") cs :: l2)) EmptyString w
    = render_inner (render ext DocumentMode) (Some (l1 ++ l2)) EmptyString w
  ∧ render ext DocumentMode (Node (Tag "webonly") cs) w
    = match render_inner (render ext DocumentMode) cs EmptyString w with
      | (inr inner, w') => (inr (Some inner), w')
      | (inl e, w') => (inl e, w')
      end.
Proof.
  assert (Hlatex : ∀ w', render ext DocumentMode (Node (Tag "latexonly") cs) w'
                         = (inr (Some EmptyString), w')) by reflexivity.
  split; [apply Hlatex|].
  split; [by apply render_inner_present|].
  split.
  - rewrite (render_inner_present _ _ EmptyString) by apply Hlatex.
    unfold render_inner. rewrite bind_run, mapM_app.
    destruct (mapM (render ext DocumentMode) l1 w) as [[e|r1] w1]; [done|].
    destruct (mapM (render ext DocumentMode) l2 w1) as [[e|r2] w2]; [done|].
    unfold ret. by rewrite filter_not_none_app, str_join_empty_element.
  - cbn [render]. unfold render_tag.
    rewrite decide_False by discriminate. rewrite decide_True by done.
    rewrite bind_run.
    by destruct (render_inner (render ext DocumentMode) cs EmptyString w)
      as [[e|inner] w'].
Qed.

(** ** Margin ids *)

Lemma render_margin_tag (ext : Externals) (tagtype : string)
    (cs : option (list Token)) (w : World) :
  tagtype ≠ "latexonly" → tagtype ≠ "webonly" →
  render ext DocumentMode (Node (Tag tagtype) cs) w
  = match render_inner (render ext DocumentMode) cs EmptyString
            (enter_margin w) with
    | (inr inner, w2) => leave_margin ext (tag_category tagtype) inner w2
    | (inl e, w2) => (inl e, w2)
    end.
Proof.
  intros H1 H2. cbn [render]. unfold render_tag.
  rewrite !decide_False by done. rewrite bind_run.
  change (modify_self (λ self, set_margin_id (margin_id self + 1) self) w)
    with (@inr Exc unit (), enter_margin w).
  cbv beta iota. rewrite bind_run.
  by destruct (render_inner (render ext DocumentMode) cs EmptyString
                 (enter_margin w)) as [[e|inner] w2].
Qed.

Lemma render_margin_qso (ext : Externals) (cs : option (list Token))
    (w : World) :
  render ext DocumentMode (Node Qso cs) w
  = match qso_children (render ext DocumentMode) qso_line cs EmptyString
            (enter_margin w) with
    | (inr qso, w2) => leave_margin ext "qso" qso w2
    | (inl e, w2) => (inl e, w2)
    end.
Proof.
  cbn [render]. unfold render_qso. rewrite bind_run.
  change (modify_self (λ self, set_margin_id (margin_id self + 1) self) w)
    with (@inr Exc unit (), enter_margin w).
  cbv beta iota. rewrite bind_run.
  by destruct (qso_children (render ext DocumentMode) qso_line cs EmptyString
                 (enter_margin w)) as [[e|qso] w2].
Qed.

(** The document rule of a kind that renders its children and does not call
    the margin template either has no rule to dispatch to, or ends in the
    state in which [render_inner] ends and raises exactly when
    [render_inner] does; the children are rendered from the state of the
    start, for a document after its footnotes were taken over. *)
Lemma render_follows_inner (ext : Externals) (k : Kind) (l : list Token)
    (w : World) :
  is_margin_kind k = false → renders_children k = true →
  render ext DocumentMode (Node k (Some l)) w = (inl KeyError, w)
  ∨ ∃ base w0,
      quiet w w0
      ∧ match render_inner (render ext DocumentMode) (Some l) base w0 with
        | (inr _, w') =>
            ∃ r, render ext DocumentMode (Node k (Some l)) w = (inr r, w')
        | (inl e, w') =>
            render ext DocumentMode (Node k (Some l)) w = (inl e, w')
        end.
Proof.
  intros Hm Hr.
  destruct k; try discriminate; cbn [render];
    unfold render_quote, render_underline, render_table,
      render_table_header, render_table_row, render_table_cell;
    try (by left);
    try (right; exists EmptyString, w; split; [by split|]; rewrite bind_run;
         destruct (render_inner _ _ EmptyString w) as [[?|?] ?]; unfold ret;
         by eauto).
  - (* Document *)
    right. exists nl, (after_footnotes footnotes0 w). split; [by split|].
    unfold render_document. rewrite bind_run.
    change (modify_self
              (λ self, set_footnotes (footnotes0 ∪ footnotes self) self) w)
      with (@inr Exc unit (), after_footnotes footnotes0 w).
    cbv beta iota. rewrite bind_run.
    destruct (render_inner _ _ nl _) as [[?|?] ?]; unfold ret; by eauto.
  - (* Tag: webonly *)
    simpl in Hm, Hr. unfold render_tag.
    case_decide; [discriminate|]. case_decide; [|discriminate].
    right. exists EmptyString, w. split; [by split|]. rewrite bind_run.
    destruct (render_inner _ _ EmptyString w) as [[?|?] ?]; unfold ret;
      by eauto.
  - (* TableBody *)
    right. exists EmptyString, w. split; [by split|].
    unfold render_table_body. destruct l as [|c l].
    + cbn. unfold ret. by eauto.
    + rewrite bind_run.
      destruct (render_inner _ _ _ _) as [[?|?] ?]; unfold ret; by eauto.
Qed.

(** A document rule that neither renders children nor calls the margin
    template leaves the template calls and the margin id alone. *)
Lemma render_childless_quiet (ext : Externals) (k : Kind)
    (cs : option (list Token)) (w : World) :
  is_margin_kind k = false → renders_children k = false →
  quiet w (render ext DocumentMode (Node k cs) w).2.
Proof.
  intros Hm Hr.
  destruct k; try discriminate; try (by split).
  - (* Tag: latexonly *)
    simpl in Hr. cbn [render]. unfold render_tag.
    case_decide; [by split | discriminate].
  - (* NonbreakingSpacesDots *)
    cbn [render]. unfold render_nonbreaking_spaces_dots, dots_lookup.
    repeat case_decide; by split.
  - (* Question *)
    cbn [render]. unfold render_question. rewrite bind_run. cbn.
    by destruct (question_renderer (instance w)).
  - (* Include *)
    cbn [render]. unfold render_include. rewrite bind_run. cbn.
    by destruct (include_handler (instance w)).
Qed.

(** Without a list of children, a document rule that does not call the
    margin template leaves the template calls and the margin id alone. *)
Lemma render_no_children_quiet (ext : Externals) (k : Kind) (w : World) :
  is_margin_kind k = false →
  quiet w (render ext DocumentMode (Node k None) w).2.
Proof.
  intros Hm. destruct (renders_children k) eqn:Hr;
    [|by apply render_childless_quiet].
  destruct k; try discriminate; try (by split).
  simpl in Hm, Hr. cbn [render]. unfold render_tag.
  case_decide; [discriminate|]. case_decide; [by split | discriminate].
Qed.

Lemma mapM_outcome {A B : Type} (f : A → Py B) (I E : World → World → Prop)
    (l : list A) :
  (∀ w, I w w) →
  (∀ a b c, I a b → I b c → I a c) →
  (∀ a b c, I a b → E b c → E a c) →
  Forall (λ a, ∀ w, outcome I E w (f a w)) l →
  ∀ w, outcome I E w (mapM f l w).
Proof.
  intros Hrefl Htrans Hfail Hl. induction Hl as [|a l Ha _ IH]; intros w.
  - apply Hrefl.
  - rewrite mapM_cons. specialize (Ha w).
    destruct (f a w) as [[e|b] w1]; [exact Ha|].
    specialize (IH w1).
    destruct (mapM f l w1) as [[e|bs] w2]; simpl in *; eauto.
Qed.

Lemma render_inner_outcome (render : Token → Py (option string))
    (I E : World → World → Prop) (l : list Token) (base : string) :
  (∀ w, I w w) →
  (∀ a b c, I a b → I b c → I a c) →
  (∀ a b c, I a b → E b c → E a c) →
  Forall (λ a, ∀ w, outcome I E w (render a w)) l →
  ∀ w, outcome I E w (render_inner render (Some l) base w).
Proof.
  intros Hrefl Htrans Hfail Hl w. unfold render_inner. rewrite bind_run.
  pose proof (mapM_outcome render I E l Hrefl Htrans Hfail Hl w) as H.
  by destruct (mapM render l w) as [[e|rs] w'].
Qed.

Lemma outcome_same {A : Type} (R : World → World → Prop) (w : World)
    (x : (Exc + A) * World) :
  outcome R R w x ↔ R w x.2.
Proof. by destruct x as [[e|a] w']. Qed.

Lemma quiet_refl (w : World) : quiet w w.
Proof. by split. Qed.

Lemma quiet_trans (a b c : World) : quiet a b → quiet b c → quiet a c.
Proof. unfold quiet. intuition congruence. Qed.

Lemma qso_loop_cons (render : Token → Py (option string))
    (line : bool → string → string) (k : Kind) (ccs : option (list Token))
    (rest : list Token) (qso : string) (w : World) :
  qso_loop render line (Node k ccs :: rest) qso w
  = match k with
    | QsoLine received =>
        match render_inner render ccs EmptyString w with
        | (inr inner, w1) =>
            qso_loop render line rest (qso +:+ line received inner) w1
        | (inl e, w1) => (inl e, w1)
        end
    | _ => (inl AttributeError, w)
    end.
Proof. destruct k; reflexivity. Qed.

Lemma margin_free_inv (k : Kind) (cs : option (list Token)) :
  margin_free (Node k cs) = true →
  is_margin_kind k = false
  ∧ (renders_children k = true →
     ∀ l, cs = Some l → forallb margin_free l = true).
Proof.
  cbn [margin_free]. rewrite andb_true_iff, negb_true_iff, orb_true_iff.
  intros [Hm Hc]. split; [done|]. intros Hr l ->.
  destruct Hc as [Hc|Hc]; [by rewrite Hr in Hc | done].
Qed.

(** Rendering a token that is free of margin rules leaves the template calls
    and the margin id alone. *)
Lemma margin_free_quiet (ext : Externals) (t : Token) :
  margin_free t = true → ∀ w, quiet w (render ext DocumentMode t w).2.
Proof.
  induction t as [k|k l IH] using Token_ind; intros Hfree w;
    destruct (margin_free_inv _ _ Hfree) as [Hm Hcs].
  - by apply render_no_children_quiet.
  - destruct (renders_children k) eqn:Hr; [|by apply render_childless_quiet].
    specialize (Hcs eq_refl l eq_refl).
    destruct (render_follows_inner ext k l w Hm Hr)
      as [-> | (base & w0 & Hq0 & Hbase)]; [apply quiet_refl|].
    assert (Hin : outcome quiet quiet w0
                    (render_inner (render ext DocumentMode) (Some l) base w0)).
    { apply render_inner_outcome;
        [apply quiet_refl | apply quiet_trans | apply quiet_trans |].
      rewrite Forall_forall in IH |- *. intros c Hc w1. apply outcome_same.
      apply IH; [done|]. rewrite forallb_forall in Hcs.
      apply Hcs. by apply list_elem_of_In. }
    destruct (render_inner (render ext DocumentMode) (Some l) base w0)
      as [[e|s] w'].
    + rewrite Hbase. exact (quiet_trans _ _ _ Hq0 Hin).
    + destruct Hbase as [r ->]. exact (quiet_trans _ _ _ Hq0 Hin).
Qed.

Lemma render_inner_quiet (ext : Externals) (cs : option (list Token))
    (base : string) (w : World) :
  (∀ l, cs = Some l → forallb margin_free l = true) →
  quiet w (render_inner (render ext DocumentMode) cs base w).2.
Proof.
  intros Hcs. destruct cs as [l|]; [|apply quiet_refl].
  apply (outcome_same quiet).
  apply render_inner_outcome;
    [apply quiet_refl | apply quiet_trans | apply quiet_trans |].
  specialize (Hcs l eq_refl). rewrite forallb_forall in Hcs.
  apply Forall_forall. intros c Hc w0. apply outcome_same.
  apply margin_free_quiet. apply Hcs. by apply list_elem_of_In.
Qed.

Lemma qso_loop_quiet (ext : Externals) (line : bool → string → string)
    (l : list Token) :
  forallb margin_free l = true →
  ∀ qso w, quiet w (qso_loop (render ext DocumentMode) line l qso w).2.
Proof.
  induction l as [|[k ccs] l IH]; intros Hfree qso w; [apply quiet_refl|].
  cbn [forallb] in Hfree. apply andb_true_iff in Hfree as [Hc Hl].
  rewrite qso_loop_cons.
  destruct k; try apply quiet_refl.
  assert (Hq : quiet w (render_inner (render ext DocumentMode) ccs
                          EmptyString w).2).
  { apply render_inner_quiet. intros l0 ->.
    by apply (margin_free_inv _ _ Hc). }
  destruct (render_inner _ _ _ _) as [[e|inner] w1]; [exact Hq|].
  eapply quiet_trans; [exact Hq | by apply IH].
Qed.

Lemma qso_children_quiet (ext : Externals) (line : bool → string → string)
    (cs : option (list Token)) (qso : string) (w : World) :
  (∀ l, cs = Some l → forallb margin_free l = true) →
  quiet w (qso_children (render ext DocumentMode) line cs qso w).2.
Proof.
  intros Hcs. destruct cs as [l|]; [|apply quiet_refl].
  by apply qso_loop_quiet, Hcs.
Qed.

Lemma consecutive_run_refl (w : World) : consecutive_run w w.
Proof. exists []. by rewrite app_nil_r, Nat.add_0_r. Qed.

Lemma consecutive_calls_refl (w : World) : consecutive_calls w w.
Proof. exists []. by rewrite app_nil_r. Qed.

Lemma consecutive_run_calls (a b c : World) :
  consecutive_run a b → consecutive_calls b c → consecutive_calls a c.
Proof.
  intros (n1 & Hc1 & Hi1 & Hm1) (n2 & Hc2 & Hi2).
  exists (n1 ++ n2). split; [by rewrite Hc2, Hc1, app_assoc|].
  rewrite map_app, length_app, seq_app, Hi1, Hi2, Hm1. f_equal.
Qed.

Lemma consecutive_run_trans (a b c : World) :
  consecutive_run a b → consecutive_run b c → consecutive_run a c.
Proof.
  intros (n1 & Hc1 & Hi1 & Hm1) (n2 & Hc2 & Hi2 & Hm2).
  exists (n1 ++ n2). split; [by rewrite Hc2, Hc1, app_assoc|].
  rewrite map_app, length_app, seq_app, Hi1, Hi2, Hm1, Hm2.
  split; [f_equal | lia].
Qed.

Lemma quiet_consecutive (w w' : World) :
  quiet w w' → consecutive_run w w' ∧ consecutive_calls w w'.
Proof.
  intros [Hc Hm]. split; exists []; rewrite app_nil_r, ?Nat.add_0_r; auto.
Qed.

(** A margin rule whose children were rendered quietly calls the template
    once, with the margin id that follows the one it started from. *)
Lemma margin_rule_outcome (ext : Externals) (type : string) (w : World)
    (x : (Exc + string) * World) :
  quiet (enter_margin w) x.2 →
  outcome consecutive_run consecutive_calls w
    match x with
    | (inr content, w2) => leave_margin ext type content w2
    | (inl e, w2) => (inl e, w2)
    end.
Proof.
  destruct x as [[e|content] w2]; intros [Hc Hm]; simpl in Hc, Hm.
  - exists []. by rewrite app_nil_r.
  - exists [mkCall type content (margin_id (instance w2))
              (margin_anchor_id (instance w2))].
    simpl. rewrite Hc, Hm. repeat split; f_equal; lia.
Qed.

Lemma margin_flat_inv (k : Kind) (l : list Token) :
  margin_flat (Node k (Some l)) = true →
  renders_children k = true →
  if is_margin_kind k then forallb margin_free l = true
  else forallb margin_flat l = true.
Proof.
  cbn [margin_flat]. rewrite orb_true_iff, negb_true_iff.
  intros [H|H] Hr; [by rewrite Hr in H|].
  by destruct (is_margin_kind k).
Qed.

Lemma is_margin_kind_cases (k : Kind) :
  is_margin_kind k = true →
  k = Qso ∨ ∃ tagtype, k = Tag tagtype ∧ tagtype ≠ "latexonly"
                       ∧ tagtype ≠ "webonly".
Proof.
  destruct k; try discriminate; [|by left].
  simpl. repeat case_decide; try discriminate. right. eauto.
Qed.

Lemma margin_kind_renders_children (k : Kind) :
  is_margin_kind k = true → renders_children k = true.
Proof.
  intros [-> | (tagtype & -> & H1 & H2)]%is_margin_kind_cases; [done|].
  simpl. by rewrite decide_False.
Qed.

(** Rendering a tree in which no margin rule is nested in another calls the
    template with consecutive margin ids, and ends, when it returns, with
    the margin id that was passed last. *)
Lemma margin_flat_consecutive (ext : Externals) (t : Token) :
  margin_flat t = true →
  ∀ w, outcome consecutive_run consecutive_calls w
         (render ext DocumentMode t w).
Proof.
  induction t as [k|k l IH] using Token_ind; intros Hflat w.
  - destruct (is_margin_kind k) eqn:Hm.
    + apply is_margin_kind_cases in Hm
        as [-> | (tagtype & -> & H1 & H2)].
      * rewrite render_margin_qso.
        apply (margin_rule_outcome ext "qso" w (inl TypeError, enter_margin w)).
        apply quiet_refl.
      * rewrite render_margin_tag by done.
        apply (margin_rule_outcome ext (tag_category tagtype) w
                 (inl TypeError, enter_margin w)).
        apply quiet_refl.
    + pose proof (render_no_children_quiet ext k w Hm) as Hq.
      apply quiet_consecutive in Hq as [H1 H2].
      by destruct (render ext DocumentMode (Node k None) w) as [[e|r] w'].
  - destruct (is_margin_kind k) eqn:Hm.
    + pose proof (margin_flat_inv k l Hflat (margin_kind_renders_children k Hm))
        as Hfree.
      rewrite Hm in Hfree.
      apply is_margin_kind_cases in Hm
        as [-> | (tagtype & -> & H1 & H2)].
      * rewrite render_margin_qso. apply margin_rule_outcome.
        apply qso_children_quiet. by intros ? [= <-].
      * rewrite render_margin_tag by done. apply margin_rule_outcome.
        apply render_inner_quiet. by intros ? [= <-].
    + destruct (renders_children k) eqn:Hr.
      * pose proof (margin_flat_inv k l Hflat Hr) as Hl. rewrite Hm in Hl.
        destruct (render_follows_inner ext k l w Hm Hr)
          as [-> | (base & w0 & Hq0 & Hbase)]; [apply consecutive_calls_refl|].
        apply quiet_consecutive in Hq0 as [Hq0 _].
        assert (Hin : outcome consecutive_run consecutive_calls w0
                  (render_inner (render ext DocumentMode) (Some l) base w0)).
        { apply render_inner_outcome;
            [apply consecutive_run_refl | apply consecutive_run_trans
            | apply consecutive_run_calls |].
          rewrite Forall_forall in IH |- *. intros c Hc w1.
          apply IH; [done|]. rewrite forallb_forall in Hl.
          apply Hl. by apply list_elem_of_In. }
        destruct (render_inner (render ext DocumentMode) (Some l) base w0)
          as [[e|s] w'].
        -- rewrite Hbase. exact (consecutive_run_calls _ _ _ Hq0 Hin).
        -- destruct Hbase as [r ->].
           exact (consecutive_run_trans _ _ _ Hq0 Hin).
      * pose proof (render_childless_quiet ext k (Some l) w Hm Hr) as Hq.
        apply quiet_consecutive in Hq as [H1 H2].
        by destruct (render ext DocumentMode (Node k (Some l)) w) as [[e|r] w'].
Qed.

(** C10 (as stated) fails where margin rules nest.  The rule of the outer tag
    reads the margin id after its children were rendered, so a tag inside a
    tag makes the template receive the id 2 twice and the id 1 never; and a
    webonly tag around a margin tag does not leave the margin id as it
    was. *)
Lemma nested_margin_ids_repeat :
  map call_id
    (template_calls
       (render sample_externals DocumentMode
          (node (Document ∅)
             [node (Tag "webmargin") [node (Tag "webtip") [text "x"]]])
          sample_world).2)
  = [2; 2]
  ∧ [2; 2] ≠ seq 1 2
  ∧ margin_id (instance sample_world) = 0
  ∧ margin_id
      (instance
         (render sample_externals DocumentMode
            (node (Tag "webonly") [node (Tag "webmargin") [text "x"]])
            sample_world).2)
    = 1.
Proof. split; [reflexivity|]. split; [discriminate|]. split; reflexivity. Qed.

(** C10 (as amended). In document mode the rule of a latexonly tag leaves the
    state, and so the margin id, as it is; the rule of a webonly tag does not
    touch the margin id itself: it ends in the state the rendering of its
    children ends in.  The rule of any other tag and the rule of a Qso
    increment the margin id by exactly one before anything else: the
    instance they end with is the one reached by rendering the children
    from the incremented state.  Where no such tag or Qso is rendered inside
    another one, the ids passed to the template during the rendering of a
    tree are consecutive and strictly increasing: the call number i (from 0)
    gets the margin id of the start plus 1 plus i, and a rendering that
    returns ends with the margin id advanced by the number of calls. *)
Theorem margin_ids_of_document_rules (ext : Externals) (w : World)
    (cs : option (list Token)) (tagtype : string) (t : Token) :
  render ext DocumentMode (Node (Tag "latexonly") cs) w
  = (inr (Some EmptyString), w)
  ∧ (render ext DocumentMode (Node (Tag "webonly") cs) w).2
    = (render_inner (render ext DocumentMode) cs EmptyString w).2
  ∧ margin_id (instance (enter_margin w)) = margin_id (instance w) + 1
  ∧ (tagtype ≠ "latexonly" → tagtype ≠ "webonly" →
     instance (render ext DocumentMode (Node (Tag tagtype) cs) w).2
     = instance (render_inner (render ext DocumentMode) cs EmptyString
                   (enter_margin w)).2)
  ∧ instance (render ext DocumentMode (Node Qso cs) w).2
    = instance (qso_children (render ext DocumentMode) qso_line cs
                  EmptyString (enter_margin w)).2
  ∧ (margin_flat t = true →
     ∃ new,
       template_calls (render ext DocumentMode t w).2
       = template_calls w ++ new
       ∧ (∀ i c, new !! i = Some c →
            call_id c = margin_id (instance w) + 1 + i)
       ∧ (∀ r, (render ext DocumentMode t w).1 = inr r →
            margin_id (instance (render ext DocumentMode t w).2)
            = margin_id (instance w) + length new)).
Proof.
  split; [reflexivity|].
  split.
  { cbn [render]. unfold render_tag.
    rewrite decide_False by discriminate. rewrite decide_True by done.
    rewrite bind_run. by destruct (render_inner _ _ _ _) as [[?|?] ?]. }
  split; [reflexivity|].
  split.
  { intros H1 H2. rewrite render_margin_tag by done.
    by destruct (render_inner _ _ _ _) as [[?|?] ?]. }
  split.
  { rewrite render_margin_qso.
    by destruct (qso_children _ _ _ _ _) as [[?|?] ?]. }
  intros Hflat. pose proof (margin_flat_consecutive ext t Hflat w) as H.
  assert (Hids : ∀ new : list TemplateCall,
            map call_id new = seq (S (margin_id (instance w))) (length new) →
            ∀ i c, new !! i = Some c →
              call_id c = margin_id (instance w) + 1 + i).
  { intros new Hnew i c Hc.
    apply (f_equal (λ l, l !! i)) in Hnew.
    rewrite list_lookup_fmap, Hc in Hnew. simpl in Hnew. symmetry in Hnew.
    apply lookup_seq in Hnew as [-> _]. lia. }
  destruct (render ext DocumentMode t w) as [[e|r] w']; simpl in *.
  - destruct H as (new & Hc & Hi). exists new. repeat split; eauto.
    discriminate.
  - destruct H as (new & Hc & Hi & Hm). exists new. repeat split; eauto.
Qed.

(** Two margin tags and a Qso side by side, one of them under a webonly tag,
    after a thematic break: the template gets the ids 1, 2 and 3. *)
Lemma margin_ids_of_document_rules_witness :
  let document :=
    node (Document ∅)
      [leaf ThematicBreak;
       node (Tag "webmargin") [text "note"];
       node (Tag "webonly") [node (Tag "webtip") [text "tip"]];
       node (Tag "latexonly") [node (Tag "webmargin") []];
       node Qso [node (QsoLine true) [text "cq"]]] in
  ∃ new,
    template_calls
      (render sample_externals DocumentMode document sample_world).2
    = template_calls sample_world ++ new
    ∧ (∀ i c, new !! i = Some c →
         call_id c = margin_id (instance sample_world) + 1 + i)
    ∧ length new = 3.
Proof.
  intros document.
  destruct (margin_ids_of_document_rules sample_externals sample_world None
              "webmargin" document) as (_ & _ & _ & _ & _ & H).
  destruct (H eq_refl) as (new & Hc & Hi & _).
  exists new. split; [exact Hc|]. split; [exact Hi|].
  apply (f_equal length) in Hc. rewrite length_app in Hc.
  change (3 = 0 + length new) in Hc. lia.
Defined.

(** * Further properties *)

(** ** A rule for relations kept by the rendering *)

Section RenderOutcome.

Context (ext : Externals) (I E : World → World → Prop).
Hypothesis I_refl : ∀ w, I w w.
Hypothesis E_refl : ∀ w, E w w.
Hypothesis I_trans : ∀ a b c, I a b → I b c → I a c.
Hypothesis I_E : ∀ a b c, I a b → E b c → E a c.
Hypothesis I_break : ∀ w, I w (after_break w).
Hypothesis I_footnotes : ∀ fn w, I w (after_footnotes fn w).

Lemma outcome_ret {A : Type} (a : A) (w : World) : outcome I E w (ret a w).
Proof. apply I_refl. Qed.

Lemma outcome_raise {A : Type} (e : Exc) (w : World) :
  outcome I E w (@raise A e w).
Proof. apply E_refl. Qed.

Lemma outcome_get_self (w : World) : outcome I E w (get_self w).
Proof. apply I_refl. Qed.

Lemma outcome_bind {A B : Type} (m : Py A) (k : A → Py B) (w : World) :
  outcome I E w (m w) →
  (∀ a w1, outcome I E w1 (k a w1)) →
  outcome I E w (bind m k w).
Proof.
  intros Hm Hk. rewrite bind_run. destruct (m w) as [[e|a] w1]; [exact Hm|].
  specialize (Hk a w1). destruct (k a w1) as [[e|b] w2]; simpl in *; eauto.
Qed.

Lemma qso_loop_outcome (mode : Mode) (line : bool → string → string)
    (l : list Token) :
  Forall (λ t, ∀ base w,
            outcome I E w
              (render_inner (render ext mode) (token_children t) base w)) l →
  ∀ qso w, outcome I E w (qso_loop (render ext mode) line l qso w).
Proof.
  intros Hl. induction Hl as [|[k ccs] l Hc _ IH]; intros qso w.
  - apply I_refl.
  - rewrite qso_loop_cons. destruct k; try apply E_refl.
    specialize (Hc EmptyString w). simpl in Hc.
    destruct (render_inner (render ext mode) ccs EmptyString w)
      as [[e|inner] w1]; [exact Hc|].
    specialize (IH (qso +:+ line received inner) w1).
    destruct (qso_loop _ _ _ _ _) as [[e|q] w2]; simpl in *; eauto.
Qed.

Ltac outcome_step Hinner Hqso :=
  first
    [ apply outcome_ret
    | apply outcome_raise
    | apply outcome_get_self
    | apply Hinner
    | apply Hqso
    | exact (I_break _)
    | exact (I_footnotes _ _)
    | apply outcome_bind; [|intros ? ?]
    | case_decide
    | match goal with
      | |- context [match ?x with Some _ => _ | None => _ end] => destruct x
      | |- context [match ?x with [] => _ | _ :: _ => _ end] => destruct x
      end ].

(** The rule of one token, given what the rendering of its children
    keeps. *)
Lemma render_kind_outcome (mode : Mode) (k : Kind) (cs : option (list Token)) :
  (mode = DocumentMode → ∀ w w2 type content,
     I (enter_margin w) w2 → I w (leave_margin ext type content w2).2) →
  (mode = DocumentMode → ∀ w w2, E (enter_margin w) w2 → E w w2) →
  (∀ base w, outcome I E w (render_inner (render ext mode) cs base w)) →
  (∀ line qso w,
     outcome I E w (qso_children (render ext mode) line cs qso w)) →
  ∀ w, outcome I E w (render ext mode (Node k cs) w).
Proof.
  intros HI HE Hinner Hqso w.
  destruct (is_margin_kind k) eqn:Hm; [destruct mode|].
  - (* a margin rule of the document renderer *)
    apply is_margin_kind_cases in Hm as [-> | (tagtype & -> & H1 & H2)].
    + rewrite render_margin_qso.
      specialize (Hqso qso_line EmptyString (enter_margin w)).
      destruct (qso_children _ _ _ _ _) as [[e|q] w2]; simpl in *.
      * by apply HE.
      * by apply (HI eq_refl w w2 "qso" q).
    + rewrite render_margin_tag by done.
      specialize (Hinner EmptyString (enter_margin w)).
      destruct (render_inner _ _ _ _) as [[e|q] w2]; simpl in *.
      * by apply HE.
      * by apply (HI eq_refl w w2 (tag_category tagtype) q).
  - (* the same kinds in the slide renderer *)
    apply is_margin_kind_cases in Hm as [-> | (tagtype & -> & H1 & H2)];
      cbn [render]; unfold slide_render_qso, slide_render_tag;
      repeat outcome_step Hinner Hqso.
  - destruct k; try discriminate; destruct mode; cbn [render];
      unfold render_document, render_quote, render_underline,
        render_thematic_break, render_tag, slide_render_tag,
        render_nonbreaking_spaces_dots, dots_lookup, render_question,
        render_include, render_table, render_table_header, render_table_row,
        render_table_cell, render_table_body, render_slide_break,
        modify_self;
      cbv zeta; simpl in Hm;
      repeat outcome_step Hinner Hqso;
      try discriminate.
Qed.

Lemma render_outcome_both (mode : Mode) :
  (mode = DocumentMode → ∀ w w2 type content,
     I (enter_margin w) w2 → I w (leave_margin ext type content w2).2) →
  (mode = DocumentMode → ∀ w w2, E (enter_margin w) w2 → E w w2) →
  ∀ t,
    (∀ base w,
       outcome I E w
         (render_inner (render ext mode) (token_children t) base w))
    ∧ ∀ w, outcome I E w (render ext mode t w).
Proof.
  intros HI HE t. induction t as [k|k l IH] using Token_ind.
  - assert (Hinner : ∀ base w,
              outcome I E w (render_inner (render ext mode) None base w))
      by (intros; apply E_refl).
    split; [exact Hinner|].
    apply render_kind_outcome; auto; intros; apply E_refl.
  - assert (Hinner : ∀ base w,
              outcome I E w (render_inner (render ext mode) (Some l) base w)).
    { intros base w. apply render_inner_outcome; auto.
      eapply Forall_impl; [exact IH|]. by intros t [_ H]. }
    split; [exact Hinner|].
    apply render_kind_outcome; auto.
    intros line qso w. apply qso_loop_outcome.
    eapply Forall_impl; [exact IH|]. by intros t [H _].
Qed.

Lemma render_outcome (mode : Mode) :
  (mode = DocumentMode → ∀ w w2 type content,
     I (enter_margin w) w2 → I w (leave_margin ext type content w2).2) →
  (mode = DocumentMode → ∀ w w2, E (enter_margin w) w2 → E w w2) →
  ∀ t w, outcome I E w (render ext mode t w).
Proof. intros HI HE t. by apply render_outcome_both. Qed.

End RenderOutcome.

(** ** What the rendering leaves alone *)

Lemma same_but_margin_ids_trans (a b c : Renderer) :
  same_but_margin_ids a b → same_but_margin_ids b c → same_but_margin_ids a c.
Proof. unfold same_but_margin_ids. intuition congruence. Qed.

(** X1. Rendering a tree, in either mode and whether it returns or raises,
    changes nothing of the instance but the two margin-id counters and the
    footnotes: the figure map, the figure counter, the location context,
    the section URL and the handlers are those of the start.  The footnotes
    only gain entries (from the documents rendered) or have entries
    overwritten: no key is removed. *)
Theorem render_keeps_numbering_and_handlers (ext : Externals) (mode : Mode)
    (t : Token) (w : World) :
  same_but_margin_ids (instance w) (instance (render ext mode t w).2)
  ∧ footnotes_kept (instance w) (instance (render ext mode t w).2).
Proof.
  set (R := λ w1 w2 : World,
         same_but_margin_ids (instance w1) (instance w2)
         ∧ footnotes_kept (instance w1) (instance w2)).
  assert (Hrefl : ∀ w0, R w0 w0).
  { intros w0. split; [by repeat split | by intros key]. }
  assert (Htrans : ∀ a b c, R a b → R b c → R a c).
  { intros a b c [H1 F1] [H2 F2]. split.
    - by apply (same_but_margin_ids_trans _ (instance b)).
    - intros key Hk. by apply F2, F1. }
  assert (Hbreak : ∀ w0, R w0 (after_break w0)).
  { intros w0. split; [by repeat split | by intros key]. }
  assert (Hnotes : ∀ fn w0, R w0 (after_footnotes fn w0)).
  { intros fn w0. split; [by repeat split|]. intros key Hk. simpl.
    apply lookup_union_is_Some. by right. }
  assert (Henter : ∀ w0, R w0 (enter_margin w0)).
  { intros w0. split; [by repeat split | by intros key]. }
  apply (outcome_same R).
  apply (render_outcome ext R R Hrefl Hrefl Htrans Htrans Hbreak Hnotes).
  - intros _ w0 w2 type content H. exact (Htrans _ _ _ (Henter w0) H).
  - intros _ w0 w2 H. exact (Htrans _ _ _ (Henter w0) H).
Qed.

(** X2. The slide renderer never calls the margin template and never changes
    the margin id, whatever the tree and whether the rendering returns or
    raises. *)
Theorem slide_render_never_calls_template (ext : Externals) (t : Token)
    (w : World) :
  template_calls (render ext SlideMode t w).2 = template_calls w
  ∧ margin_id (instance (render ext SlideMode t w).2) = margin_id (instance w).
Proof.
  apply (outcome_same quiet).
  apply (render_outcome ext quiet quiet quiet_refl quiet_refl quiet_trans
           quiet_trans);
    [by intros w0 | by intros fn w0 | discriminate | discriminate].
Qed.

Lemma counted_run_refl (w : World) : counted_run w w.
Proof. exists []. rewrite app_nil_r, Nat.add_0_r. by repeat split. Qed.

Lemma counted_calls_refl (w : World) : counted_calls w w.
Proof.
  exists []. rewrite app_nil_r. simpl. repeat split; auto; lia.
Qed.

Lemma counted_run_trans (a b c : World) :
  counted_run a b → counted_run b c → counted_run a c.
Proof.
  intros (n1 & Hc1 & Hm1 & Ha1 & Hf1) (n2 & Hc2 & Hm2 & Ha2 & Hf2).
  exists (n1 ++ n2). rewrite length_app.
  split; [by rewrite Hc2, Hc1, app_assoc|].
  split; [lia|]. split; [lia|].
  apply Forall_app. split.
  - eapply Forall_impl; [exact Hf1|]. simpl. intros x. lia.
  - eapply Forall_impl; [exact Hf2|]. simpl. intros x. lia.
Qed.

Lemma counted_run_calls (a b c : World) :
  counted_run a b → counted_calls b c → counted_calls a c.
Proof.
  intros (n1 & Hc1 & Hm1 & Ha1 & Hf1) (n2 & Hc2 & Hm2 & Ha2 & Hf2).
  exists (n1 ++ n2). rewrite length_app.
  split; [by rewrite Hc2, Hc1, app_assoc|].
  split; [lia|]. split; [lia|].
  apply Forall_app. split.
  - eapply Forall_impl; [exact Hf1|]. simpl. intros x. lia.
  - eapply Forall_impl; [exact Hf2|]. simpl. intros x. lia.
Qed.

(** X3. In either mode and for every tree: the margin id and the margin
    anchor id never go down; every call of the margin template gets a
    margin id above the one of the start and at most the one of the end,
    and a margin anchor id between those of the start and of the end; the
    margin id advances by at least the number of calls, and by exactly that
    number when the rendering returns. *)
Theorem render_counts_template_calls (ext : Externals) (mode : Mode)
    (t : Token) (w : World) :
  let w' := (render ext mode t w).2 in
  ∃ new,
    template_calls w' = template_calls w ++ new
    ∧ (margin_id (instance w) + length new ≤ margin_id (instance w'))%nat
    ∧ (∀ r, (render ext mode t w).1 = inr r →
         margin_id (instance w') = margin_id (instance w) + length new)
    ∧ (margin_anchor_id (instance w) ≤ margin_anchor_id (instance w'))%nat
    ∧ ∀ c, c ∈ new →
        (margin_id (instance w) < call_id c ≤ margin_id (instance w'))%nat
        ∧ (margin_anchor_id (instance w) ≤ call_margin_anchor_id c
           ≤ margin_anchor_id (instance w'))%nat.
Proof.
  assert (H : outcome counted_run counted_calls w (render ext mode t w)).
  { apply (render_outcome ext counted_run counted_calls counted_run_refl
             counted_calls_refl counted_run_trans counted_run_calls).
    - intros w0. exists []. rewrite app_nil_r. simpl.
      repeat split; auto; lia.
    - intros fn w0. exists []. rewrite app_nil_r. simpl.
      repeat split; auto; lia.
    - intros _ w0 w2 type content (new & Hc & Hm & Ha & Hf). simpl in *.
      exists (new ++ [mkCall type content (margin_id (instance w2))
                        (margin_anchor_id (instance w2))]).
      rewrite length_app. simpl.
      split; [by rewrite Hc, app_assoc|]. split; [lia|]. split; [lia|].
      apply Forall_app. split.
      + eapply Forall_impl; [exact Hf|]. simpl. intros x. lia.
      + repeat constructor; simpl; lia.
    - intros _ w0 w2 (new & Hc & Hm & Ha & Hf). simpl in *.
      exists new. split; [done|]. split; [lia|]. split; [lia|].
      eapply Forall_impl; [exact Hf|]. simpl. intros x. lia. }
  intros w'. subst w'.
  destruct (render ext mode t w) as [[e|r] w']; simpl in *.
  - destruct H as (new & Hc & Hm & Ha & Hf). exists new.
    rewrite Forall_forall in Hf. repeat split; auto; try discriminate;
      by apply Hf.
  - destruct H as (new & Hc & Hm & Ha & Hf). exists new.
    rewrite Forall_forall in Hf. repeat split; auto; try lia; by apply Hf.
Qed.

(** ** The figure map *)

Lemma expected_map_context (s1 s2 : Renderer) (k : nat) (figs : list Token)
    (m : gmap string string) :
  edition s1 = edition s2 → chapter s1 = chapter s2 → section s1 = section s2 →
  expected_map s1 k figs m = expected_map s2 k figs m.
Proof.
  intros He Hc Hs. revert k m.
  induction figs as [|f figs IH]; intros k m; [done|].
  simpl. rewrite !IH. by rewrite (format_same_context s1 s2).
Qed.

Lemma expected_map_app (self : Renderer) (k : nat) (a b : list Token)
    (m : gmap string string) :
  expected_map self k (a ++ b) m
  = expected_map self (k + count_numbered a) b (expected_map self k a m).
Proof.
  revert k m. induction a as [|f a IH]; intros k m.
  - simpl. by rewrite Nat.add_0_r.
  - unfold count_numbered. simpl. rewrite filter_cons.
    destruct (numbered f) eqn:E.
    + rewrite decide_True by done. simpl. rewrite IH. unfold count_numbered.
      by replace (k + 1 + length (filter (λ t, numbered t = true) a))
        with (k + S (length (filter (λ t, numbered t = true) a))) by lia.
    + rewrite decide_False by discriminate. by rewrite IH.
Qed.

Lemma number_child_map (child : Token) (self : Renderer) :
  figure_map (number_child child self).2
  = expected_map self (figure_counter self)
      (if is_figure (token_kind child) then [child] else []) (figure_map self).
Proof.
  unfold number_child.
  destruct (is_figure (token_kind child)) eqn:Hfig; [|done].
  destruct (truthy_figure_ref_id _ Hfig) as [Ht Hid].
  cbn [expected_map]. unfold numbered. rewrite Hfig, <- Ht.
  destruct (truthy (figure_ref_id (token_kind child))) eqn:Hr; [|done].
  simpl. rewrite (Hid eq_refl).
  by rewrite (format_same_context
                (set_figure_counter (figure_counter self + 1) self) self).
Qed.

Lemma collect_children_map (cs : list Token) :
  Forall (λ t, ∀ self,
            figure_map (_collect_figures_recursive t self).2
            = expected_map self (figure_counter self) (figures t)
                (figure_map self)) cs →
  ∀ self,
    figure_map (collect_children cs self).2
    = expected_map self (figure_counter self) (figures_of_forest cs)
        (figure_map self).
Proof.
  intros Hcs. induction Hcs as [|c cs Hc _ IH]; intros self; [done|].
  rewrite collect_cons.
  pose proof (number_child_map c self) as Hhead.
  destruct (number_child_head c c self eq_refl) as ((_ & _ & Hk1) & _).
  pose proof (number_child_outside c self) as (_ & _ & _ & _ & He1 & Hc1 & Hs1).
  destruct (number_child c self) as [n self1]. simpl in Hhead, Hk1, He1, Hc1, Hs1.
  pose proof (Hc self1) as Hmid.
  pose proof (collect_numbers c self1) as (_ & _ & Hk2).
  pose proof (collect_outside c self1) as (_ & _ & _ & _ & He2 & Hc2 & Hs2).
  destruct (_collect_figures_recursive c self1) as [c' self2].
  simpl in Hmid, Hk2, He2, Hc2, Hs2.
  specialize (IH self2).
  destruct (collect_children cs self2) as [rest' self3]. simpl in IH |- *.
  rewrite figures_of_forest_cons, !expected_map_app, IH, Hmid, Hhead, Hk2, Hk1.
  rewrite (expected_map_context self2 self) by congruence.
  by rewrite (expected_map_context self1 self) by congruence.
Qed.

Lemma collect_map (t : Token) (self : Renderer) :
  figure_map (_collect_figures_recursive t self).2
  = expected_map self (figure_counter self) (figures t) (figure_map self).
Proof.
  revert self. induction t as [k|k cs IH] using Token_ind; intros self; [done|].
  rewrite collect_node, figures_node.
  pose proof (collect_children_map cs IH self) as H.
  by destruct (collect_children cs self) as [cs' self'].
Qed.

Lemma numbered_identifier (f : Token) :
  numbered f = true →
  ∃ s, reference_identifier (token_kind f) = Some s ∧ s ≠ EmptyString.
Proof.
  unfold numbered. rewrite andb_true_iff. intros [_ H].
  destruct (reference_identifier (token_kind f)) as [s|]; [|done].
  simpl in H. apply bool_decide_eq_true in H. eauto.
Qed.

Lemma expected_map_is_Some (self : Renderer) (figs : list Token) (key : string) :
  ∀ k m,
    is_Some (expected_map self k figs m !! key)
    ↔ is_Some (m !! key)
      ∨ ∃ f, f ∈ figs ∧ numbered f = true
             ∧ reference_identifier (token_kind f) = Some key.
Proof.
  induction figs as [|f figs IH]; intros k m.
  - simpl. split; [by left|]. intros [H|(f & Hf & _)]; [done|].
    by apply elem_of_nil in Hf.
  - simpl. destruct (numbered f) eqn:Hn.
    + destruct (numbered_identifier f Hn) as (s & Hs & _).
      rewrite IH, Hs. simpl. rewrite lookup_insert_is_Some. split.
      * intros [[->|[_ H]]|(g & Hg & Hng & Hkey)]; [right|by left|right].
        -- exists f. split; [left|done].
        -- exists g. split; [by right|done].
      * intros [H|(g & Hg & Hng & Hkey)].
        -- destruct (decide (s = key)); left; [by left | by right].
        -- apply elem_of_cons in Hg as [->|Hg].
           ++ left. left. congruence.
           ++ right. eauto.
    + rewrite IH. split.
      * intros [H|(g & Hg & Hng & Hkey)]; [by left|right].
        exists g. split; [by right|done].
      * intros [H|(g & Hg & Hng & Hkey)]; [by left|].
        apply elem_of_cons in Hg as [->|Hg]; [congruence|]. right. eauto.
Qed.

Lemma expected_map_untouched (self : Renderer) (figs : list Token)
    (key : string) :
  (∀ g, g ∈ figs → numbered g = true →
        reference_identifier (token_kind g) ≠ Some key) →
  ∀ k m, expected_map self k figs m !! key = m !! key.
Proof.
  induction figs as [|f figs IH]; intros Hfigs k m; [done|].
  simpl. destruct (numbered f) eqn:Hn.
  - rewrite IH by (intros g Hg; apply Hfigs; by right).
    destruct (numbered_identifier f Hn) as (s & Hs & _).
    rewrite Hs. simpl. apply lookup_insert_ne. intros ->.
    by apply (Hfigs f); [left| |].
  - apply IH. intros g Hg. apply Hfigs. by right.
Qed.

(** X4. After [collect_figures] the figure map has an entry under a key
    exactly when some figure of the document with a non-empty reference
    identifier carries that key; entries of an earlier document are gone. *)
Theorem figure_map_keys (document : Token) (self : Renderer) (key : string) :
  is_Some (figure_map (collect_figures document self).2 !! key)
  ↔ ∃ f, f ∈ figures document ∧ numbered f = true
         ∧ reference_identifier (token_kind f) = Some key.
Proof.
  unfold collect_figures. rewrite collect_map, expected_map_is_Some.
  simpl. rewrite lookup_empty. split; [|by right].
  intros [H|H]; [by destruct H | done].
Qed.

Lemma counter_at_take (figs : list Token) (i : nat) (f : Token) :
  figs !! i = Some f → numbered f = true →
  counter_at figs i = count_numbered (take i figs) + 1.
Proof.
  intros Hf Hn. unfold counter_at, count_numbered.
  rewrite (take_S_r _ _ _ Hf), filter_app, length_app, filter_cons.
  by rewrite decide_True by done.
Qed.

(** X5. The figure map resolves a reference identifier to the number of the
    last figure that carries it: if the figure at position i of the
    pre-order listing has the non-empty identifier key and no later numbered
    figure has the same one, then after [collect_figures] the map holds
    under key the number written on that figure, and a Reference to key
    renders, in either mode, as the link with that number as its text. *)
Theorem figure_map_resolves_last (document : Token) (self : Renderer)
    (i : nat) (f : Token) (key : string) :
  let result := collect_figures document self in
  let num := _format_figure_number self (counter_at (figures document) i) in
  figures document !! i = Some f →
  numbered f = true →
  reference_identifier (token_kind f) = Some key →
  (∀ j g, (i < j)%nat → figures document !! j = Some g → numbered g = true →
          reference_identifier (token_kind g) ≠ Some key) →
  figure_map result.2 !! key = Some num
  ∧ (∀ f', figures result.1 !! i = Some f' → token_number f' = Some num)
  ∧ ∀ ext mode calls cs,
      render ext mode (Node (References key) cs) (mkWorld result.2 calls)
      = (inr (Some (reference_link result.2 key num)), mkWorld result.2 calls).
Proof.
  intros result num Hf Hn Hkey Hlast.
  assert (Hmap : figure_map result.2 !! key = Some num).
  { unfold result, collect_figures. rewrite collect_map. simpl.
    rewrite <- (take_drop_middle _ _ _ Hf) at 1.
    rewrite expected_map_app. simpl. rewrite Hn, Hkey. simpl.
    rewrite expected_map_untouched.
    - rewrite lookup_insert_eq. unfold num.
      rewrite (counter_at_take _ _ _ Hf Hn).
      by rewrite (format_same_context
                    (set_figure_map ∅ (set_figure_counter 0 self)) self).
    - intros g Hg. apply list_elem_of_lookup in Hg as [j Hj].
      rewrite lookup_drop in Hj. apply (Hlast (S i + j)); [lia | done]. }
  split; [exact Hmap|]. split.
  - intros f' Hf'.
    destruct (collect_figures_numbers document self) as (_ & Hsame & _ & Hnum).
    rewrite (Hnum i f' Hf').
    assert (Hnf : numbered f' = numbered f).
    { apply (f_equal (λ l, l !! i)) in Hsame.
      rewrite !list_lookup_fmap in Hsame. fold result in Hsame.
      rewrite Hf, Hf' in Hsame. by injection Hsame. }
    rewrite Hnf, Hn. unfold num.
    by rewrite (counter_at_numbered _ _ i Hsame).
  - intros ext mode calls cs. cbn [render].
    rewrite bind_run. cbn. unfold render_references, reference_link.
    by rewrite Hmap.
Qed.

Lemma figure_map_resolves_last_witness :
  let document :=
    node (Document ∅)
      [leaf (Picture "a" (Some "fig") "A" EmptyString);
       node Quote [leaf (Photo "b" (Some "fig") "B" EmptyString)];
       leaf (References "fig")] in
  figure_map (collect_figures document sample_renderer).2 !! "fig"
  = Some "3-2.1.2".
Proof.
  intros document.
  destruct (figure_map_resolves_last document sample_renderer 1
              (leaf (Photo "b" (Some "fig") "B" EmptyString)) "fig")
    as [H _]; [reflexivity | reflexivity | reflexivity | | exact H].
  intros j g Hj Hg. destruct j as [|[|j]]; [lia | lia | discriminate].
Defined.

(** X6. The figure counter ends at the number of figures of the document
    with a non-empty reference identifier, whatever it was before. *)
Theorem figure_counter_counts_numbered (document : Token) (self : Renderer) :
  figure_counter (collect_figures document self).2
  = length (filter (λ f, numbered f = true) (figures document)).
Proof.
  by destruct (collect_figures_numbers document self) as (_ & _ & H & _).
Qed.

(** ** Numbers are never empty *)






(** ** The numbering pass changes numbers only, and is idempotent *)

Lemma strip_node (k : Kind) (cs : option (list Token)) :
  strip_numbers (Node k cs)
  = Node (strip_kind k) (map strip_numbers <$> cs).
Proof. by destruct cs. Qed.

Lemma strip_apply_number (n : option string) (t : Token) :
  strip_numbers (apply_number n t) = strip_numbers t.
Proof. destruct n as [s|]; [|done]. by destruct t as [[] [cs|]]. Qed.

Lemma collect_children_strip (cs : list Token) :
  Forall (λ t, ∀ self, strip_numbers (_collect_figures_recursive t self).1
                       = strip_numbers t) cs →
  ∀ self, map strip_numbers (collect_children cs self).1
          = map strip_numbers cs.
Proof.
  intros Hcs. induction Hcs as [|c cs Hc _ IH]; intros self; [done|].
  rewrite collect_cons. destruct (number_child c self) as [n self1].
  specialize (Hc self1).
  destruct (_collect_figures_recursive c self1) as [c' self2].
  specialize (IH self2).
  destruct (collect_children cs self2) as [rest' self3]. simpl in *.
  by rewrite strip_apply_number, Hc, IH.
Qed.

Lemma collect_strip (t : Token) (self : Renderer) :
  strip_numbers (_collect_figures_recursive t self).1 = strip_numbers t.
Proof.
  revert self. induction t as [k|k cs IH] using Token_ind; intros self; [done|].
  rewrite collect_node.
  pose proof (collect_children_strip cs IH self) as H.
  destruct (collect_children cs self) as [cs' self']. simpl in *.
  by rewrite H.
Qed.

(** X8. [collect_figures] changes nothing of the tree but the [number]
    attributes of pictures, photos and tables: with the numbers blanked, the
    tree after the pass is the tree before it. *)
Theorem collect_figures_changes_numbers_only (document : Token)
    (self : Renderer) :
  strip_numbers (collect_figures document self).1 = strip_numbers document.
Proof. apply collect_strip. Qed.

Lemma strip_kind_figure (k : Kind) :
  is_figure (strip_kind k) = is_figure k
  ∧ figure_ref_id (strip_kind k) = figure_ref_id k
  ∧ (is_figure k = false → strip_kind k = k).
Proof. by destruct k. Qed.

Lemma number_child_strip (c1 c2 : Token) (self : Renderer) :
  strip_numbers c1 = strip_numbers c2 →
  number_child c1 self = number_child c2 self.
Proof.
  destruct c1 as [k1 cs1], c2 as [k2 cs2]. rewrite !strip_node.
  intros [= Hk _]. unfold number_child. simpl.
  destruct (strip_kind_figure k1) as (<- & <- & _).
  destruct (strip_kind_figure k2) as (<- & <- & _).
  by rewrite Hk.
Qed.

Lemma apply_number_strip (n : option string) (k1 k2 : Kind)
    (cs : option (list Token)) :
  strip_kind k1 = strip_kind k2 →
  (n = None ↔ is_figure k1 = false) →
  apply_number n (Node k1 cs) = apply_number n (Node k2 cs).
Proof.
  intros Hk Hn.
  assert (Hfig : is_figure k1 = is_figure k2).
  { destruct (strip_kind_figure k1) as (<- & _).
    destruct (strip_kind_figure k2) as (<- & _). by rewrite Hk. }
  destruct n as [s|].
  - destruct (is_figure k1) eqn:H1; [|by destruct Hn as [_ Hn]; specialize (Hn eq_refl)].
    destruct k1; try discriminate; destruct k2; try discriminate;
      simpl in Hk; injection Hk; intros; subst; reflexivity.
  - destruct Hn as [Hn _]. specialize (Hn eq_refl).
    destruct (strip_kind_figure k1) as (_ & _ & H1).
    destruct (strip_kind_figure k2) as (_ & _ & H2).
    rewrite H1, H2 in Hk by congruence. by rewrite Hk.
Qed.

Lemma number_child_none (child : Token) (self : Renderer) :
  (number_child child self).1 = None ↔ is_figure (token_kind child) = false.
Proof.
  unfold number_child.
  destruct (is_figure (token_kind child)); [|done].
  by destruct (truthy _).
Qed.

Lemma collect_children_again (l1 : list Token) :
  Forall (λ t1, ∀ t2 s1 s2,
            strip_numbers t1 = strip_numbers t2 → same_numbering s1 s2 →
            token_children (_collect_figures_recursive t1 s1).1
            = token_children (_collect_figures_recursive t2 s2).1
            ∧ same_numbering (_collect_figures_recursive t1 s1).2
                (_collect_figures_recursive t2 s2).2) l1 →
  ∀ l2 s1 s2,
    map strip_numbers l1 = map strip_numbers l2 → same_numbering s1 s2 →
    (collect_children l1 s1).1 = (collect_children l2 s2).1
    ∧ same_numbering (collect_children l1 s1).2 (collect_children l2 s2).2.
Proof.
  intros Hl. induction Hl as [|c1 l1 Hc _ IH]; intros [|c2 l2] s1 s2 Hstrip Hs;
    try discriminate; [by split|].
  injection Hstrip as Hc12 Hl12. rewrite !collect_cons.
  destruct (number_child_same c1 s1 s2 Hs) as [Hn Hs1].
  rewrite (number_child_strip c1 c2 s2 Hc12) in Hn, Hs1.
  pose proof (number_child_none c1 s1) as Hnone.
  destruct (number_child c1 s1) as [n a1], (number_child c2 s2) as [n2 a2].
  simpl in Hn, Hs1, Hnone. subst n2.
  destruct (Hc c2 a1 a2 Hc12 Hs1) as [Hch Hs2].
  pose proof (collect_kind c1 a1) as Hk1. pose proof (collect_kind c2 a2) as Hk2.
  destruct (_collect_figures_recursive c1 a1) as [[k1' ch1] b1],
           (_collect_figures_recursive c2 a2) as [[k2' ch2] b2].
  simpl in Hch, Hs2, Hk1, Hk2. subst ch2 k1' k2'.
  destruct (IH l2 b1 b2 Hl12 Hs2) as [Hr Hs3].
  destruct (collect_children l1 b1) as [r1 d1],
           (collect_children l2 b2) as [r2 d2].
  simpl in *. subst r2. split; [|done]. f_equal.
  destruct c1 as [k1 cs1], c2 as [k2 cs2]. rewrite !strip_node in Hc12.
  injection Hc12 as Hk _. by apply apply_number_strip.
Qed.

Lemma collect_again (t1 : Token) :
  ∀ t2 s1 s2,
    strip_numbers t1 = strip_numbers t2 → same_numbering s1 s2 →
    token_children (_collect_figures_recursive t1 s1).1
    = token_children (_collect_figures_recursive t2 s2).1
    ∧ same_numbering (_collect_figures_recursive t1 s1).2
        (_collect_figures_recursive t2 s2).2.
Proof.
  induction t1 as [k1|k1 l1 IH] using Token_ind;
    intros [k2 [l2|]] s1 s2 Hstrip Hs; rewrite !strip_node in Hstrip;
    try discriminate.
  - by rewrite !collect_leaf.
  - injection Hstrip as _ Hl. rewrite !collect_node.
    destruct (collect_children_again l1 IH l2 s1 s2 Hl Hs) as [H1 H2].
    destruct (collect_children l1 s1) as [r1 d1],
             (collect_children l2 s2) as [r2 d2].
    simpl in *. by subst r2.
Qed.

Lemma number_child_handlers (child : Token) (self : Renderer) :
  same_handlers self (number_child child self).2.
Proof.
  unfold number_child, same_handlers.
  destruct (is_figure _); [destruct (truthy _)|]; simpl; tauto.
Qed.

Lemma collect_handlers (t : Token) (self : Renderer) :
  same_handlers self (_collect_figures_recursive t self).2.
Proof.
  apply (collect_keeps (same_handlers self)).
  - intros child s Hs. pose proof (number_child_handlers child s) as H.
    unfold same_handlers in *. intuition congruence.
  - unfold same_handlers. tauto.
Qed.

(** X9. [collect_figures] is idempotent: run again on the tree and the
    instance it returned, it returns the same tree and the same instance. *)
Theorem collect_figures_idempotent (document : Token) (self : Renderer) :
  collect_figures (collect_figures document self).1
    (collect_figures document self).2
  = collect_figures document self.
Proof.
  unfold collect_figures.
  set (start := set_figure_map ∅ (set_figure_counter 0 self)).
  pose proof (collect_strip document start) as Hstrip.
  pose proof (collect_outside document start) as Hout.
  pose proof (collect_handlers document start) as Hhand.
  pose proof (collect_kind document start) as Hkind.
  destruct (_collect_figures_recursive document start) as [d' s'] eqn:Hfirst.
  simpl in *.
  set (again := set_figure_map ∅ (set_figure_counter 0 s')).
  assert (Hs : same_numbering again start).
  { destruct Hout as (_ & _ & _ & _ & He & Hc & Hsec).
    by repeat split. }
  destruct (collect_again d' document again start Hstrip Hs) as [Hch Hnum].
  pose proof (collect_outside d' again) as Hout2.
  pose proof (collect_handlers d' again) as Hhand2.
  pose proof (collect_kind d' again) as Hkind2.
  rewrite Hfirst in Hch, Hnum. simpl in Hch, Hnum.
  destruct (_collect_figures_recursive d' again) as [[k2 ch2] s2].
  simpl in *. f_equal.
  - destruct d' as [k' ch']. simpl in *. by subst.
  - destruct Hnum as (_ & _ & _ & Hcnt & Hmap).
    destruct Hout as (Ha & Hm & Hu & Hr & He & Hc & Hsec).
    destruct Hout2 as (Ha2 & Hm2 & Hu2 & Hr2 & He2 & Hc2 & Hsec2).
    destruct Hhand as (Hq & Hp & Hph & Hi & Hfn).
    destruct Hhand2 as (Hq2 & Hp2 & Hph2 & Hi2 & Hfn2).
    destruct s' , s2. simpl in *. by subst.
Qed.

(** ** The edition of the slide renderer *)

Lemma string_app_assoc (a b c : string) : (a +:+ b) +:+ c = a +:+ (b +:+ c).
Proof.
  induction a as [|x a IH]; [done|].
  change (String x ((a +:+ b) +:+ c) = String x (a +:+ (b +:+ c))).
  by rewrite IH.
Qed.

(** X10. With edition, chapter and section all given and not empty, the slide
    renderer numbers figures as edition, S, dash, chapter.section.counter,
    and no number of the slide renderer equals a number of the document
    renderer built with the same arguments, whatever the two counters.
    With an absent or empty edition the slide renderer is built exactly as
    the document renderer. *)
Theorem slide_edition_suffix (q : option (string → string))
    (p ph : option (string → option string)) (inc : option (string → string))
    (e c s url : option string) (counter counter' : nat) :
  (truthy e = true → truthy c = true → truthy s = true →
     _format_figure_number (slide_init q p ph inc e c s url) counter
     = py_str e +:+ "S-" +:+ py_str c +:+ "." +:+ py_str s +:+ "."
       +:+ pretty counter
     ∧ _format_figure_number (slide_init q p ph inc e c s url) counter
       ≠ _format_figure_number (init q p ph inc e c s url) counter')
  ∧ (truthy e = false →
     slide_init q p ph inc e c s url = init q p ph inc e c s url).
Proof.
  split.
  - intros He Hc Hs.
    assert (Hslide : _format_figure_number (slide_init q p ph inc e c s url)
                       counter
                     = py_str e +:+ "S-" +:+ py_str c +:+ "." +:+ py_str s
                       +:+ "." +:+ pretty counter).
    { unfold slide_init, _format_figure_number. simpl. rewrite He. simpl.
      rewrite Hc, Hs.
      destruct e as [[|x e]|]; try discriminate. simpl.
      by rewrite string_app_assoc. }
    split; [exact Hslide|]. rewrite Hslide.
    unfold _format_figure_number. simpl. rewrite He, Hc, Hs. simpl.
    intros H. apply String.app_inj in H. discriminate.
  - intros He. unfold slide_init. simpl. by rewrite He.
Qed.

Lemma slide_edition_suffix_witness :
  _format_figure_number
    (slide_init None None None None (Some "3") (Some "2") (Some "1") None) 3
  = "3S-2.1.3"
  ∧ slide_init None None None None None (Some "2") (Some "1") None
    = init None None None None None (Some "2") (Some "1") None.
Proof.
  split.
  - destruct (slide_edition_suffix None None None None (Some "3") (Some "2")
                (Some "1") None 3 3) as [H _].
    destruct (H eq_refl eq_refl eq_refl) as [H1 _]. exact H1.
  - destruct (slide_edition_suffix None None None None None (Some "2")
                (Some "1") None 0 0) as [_ H].
    apply H. reflexivity.
Defined.

(** ** Units *)

(** X11. [convert_unit_helper] is idempotent: a glyph of the substitution
    table is not itself a key of the table. *)
Theorem convert_unit_helper_idempotent (unit : string) :
  convert_unit_helper (convert_unit_helper unit) = convert_unit_helper unit.
Proof.
  unfold convert_unit_helper at 2 3.
  destruct (units !! unit) as [glyph|] eqn:Hu.
  - unfold units in Hu. apply lookup_singleton_Some in Hu as [_ <-].
    reflexivity.
  - unfold convert_unit_helper. by rewrite Hu.
Qed.

(** ** Alternative texts *)

(** X12. A photo whose handler returns nothing or the empty string renders
    exactly as a photo without handler: the img element has the empty
    alternative text.  A picture whose handler returns nothing has no such
    fallback: the alternative text of its img element is the text None. *)
Theorem alt_text_of_empty_handler_result (mode : Mode) (self : Renderer)
    (id : string) (ref : option string) (text number : string) :
  let ref_text := match ref with Some r => r | None => "None" end in
  let img url alt_text :=
    nl +:+ "                <img src=" +:+ dq +:+ url +:+ dq +:+ " alt=" +:+ dq
    +:+ alt_text +:+ dq +:+ ">" +:+ nl +:+ "                " in
  let content url alt_text :=
    match mode with
    | SlideMode => img url alt_text
    | DocumentMode =>
        nl +:+ "                <a href=" +:+ dq +:+ url +:+ dq +:+ ">"
        +:+ img url alt_text +:+ "</a>" +:+ nl +:+ "                "
    end in
  let figure css_class inner :=
    nl +:+ "                <figure class=" +:+ dq +:+ css_class +:+ dq
    +:+ " id=" +:+ dq +:+ "ref_" +:+ ref_text +:+ dq +:+ " name=" +:+ dq
    +:+ ref_text +:+ dq +:+ ">" +:+ nl
    +:+ "                    " +:+ inner +:+ nl
    +:+ "                    <figcaption>Abbildung " +:+ number +:+ ": "
    +:+ text +:+ "</figcaption>" +:+ nl
    +:+ "                </figure>" +:+ nl +:+ "                " in
  (photo_handler self = None
   ∨ (∃ h, photo_handler self = Some h
           ∧ (h id = None ∨ h id = Some EmptyString)) →
   render_photo mode self id ref text number
   = figure "photo" (content ("photos/" +:+ id +:+ ".png") EmptyString))
  ∧ (∀ h, picture_handler self = Some h → h id = None →
     render_picture mode self id ref text number
     = figure "picture" (content ("pictures/" +:+ id +:+ ".svg") "None")).
Proof.
  cbn. split.
  - intros [H|(h & H & [Hh|Hh])]; unfold render_photo; rewrite H;
      rewrite ?Hh; by destruct mode, ref.
  - intros h H Hh. unfold render_picture. rewrite H, Hh.
    by destruct mode, ref.
Qed.

(** A photo handler that returns nothing, one that returns the empty string,
    and a picture handler that returns nothing. *)
Lemma alt_text_of_empty_handler_result_witness :
  let nothing := init None (Some (λ _, None)) (Some (λ _, None)) None
                   (Some "3") (Some "2") (Some "1") None in
  let empty := init None None (Some (λ _, Some EmptyString)) None
                 (Some "3") (Some "2") (Some "1") None in
  render_photo DocumentMode nothing "p" None "T" "1"
  = render_photo DocumentMode sample_renderer "p" None "T" "1"
  ∧ render_photo SlideMode empty "p" (Some "r") "T" "1"
    = render_photo SlideMode sample_renderer "p" (Some "r") "T" "1"
  ∧ render_picture SlideMode nothing "p" (Some "r") "T" "1"
    ≠ render_picture SlideMode sample_renderer "p" (Some "r") "T" "1".
Proof.
  intros nothing empty.
  destruct (alt_text_of_empty_handler_result DocumentMode nothing "p" None
              "T" "1") as [H1 _].
  destruct (alt_text_of_empty_handler_result DocumentMode sample_renderer "p"
              None "T" "1") as [H1' _].
  destruct (alt_text_of_empty_handler_result SlideMode empty "p" (Some "r")
              "T" "1") as [H2 _].
  destruct (alt_text_of_empty_handler_result SlideMode sample_renderer "p"
              (Some "r") "T" "1") as [H2' _].
  destruct (alt_text_of_empty_handler_result SlideMode nothing "p" (Some "r")
              "T" "1") as [_ H3].
  split; [|split].
  - rewrite H1, H1'; [done | by left |].
    right. exists (λ _, None). split; [done | by left].
  - rewrite H2, H2'; [done | by left |].
    right. exists (λ _, Some EmptyString). split; [done | by right].
  - rewrite (H3 (λ _, None) eq_refl eq_refl). discriminate.
Defined.

(** ** Exceptions *)

(** X13. An exception in a child aborts the joining of the children: when
    the children before it were rendered and the child raises, [render_inner]
    raises the same exception in the state of the raise, and the children
    after it are not rendered; so does the document root, which renders its
    children after it took over its footnotes. *)
Theorem exception_in_child_propagates (ext : Externals) (mode : Mode)
    (l1 l2 : list Token) (t : Token) (base : string) (w w1 w2 : World)
    (r1 : list (option string)) (e : Exc) :
  mapM (render ext mode) l1 w = (inr r1, w1) →
  render ext mode t w1 = (inl e, w2) →
  render_inner (render ext mode) (Some (l1 ++ t :: l2)) base w = (inl e, w2)
  ∧ ∀ fn w0, after_footnotes fn w0 = w →
      render ext mode (Node (Document fn) (Some (l1 ++ t :: l2))) w0
      = (inl e, w2).
Proof.
  intros H1 Ht.
  assert (H : ∀ b, render_inner (render ext mode) (Some (l1 ++ t :: l2)) b w
                   = (inl e, w2)).
  { intros b. unfold render_inner.
    by rewrite bind_run, mapM_app, H1, mapM_cons, Ht. }
  split; [apply H|]. intros fn w0 <-.
  cbn [render]. unfold render_document. rewrite bind_run.
  change (modify_self (λ self, set_footnotes (fn ∪ footnotes self) self) w0)
    with (@inr Exc unit (), after_footnotes fn w0).
  cbv beta iota. by rewrite bind_run, H.
Qed.

Lemma exception_in_child_propagates_witness :
  render sample_externals DocumentMode
    (node (Document ∅) [text "a"; leaf (Question "q1"); text "b"]) sample_world
  = (inl TypeError, sample_world).
Proof.
  destruct (exception_in_child_propagates sample_externals DocumentMode
              [text "a"] [text "b"] (leaf (Question "q1")) nl
              sample_world sample_world sample_world [Some "a"] TypeError)
    as [_ H]; [reflexivity | reflexivity |].
  apply H. reflexivity.
Defined.

(** X14. [render_question] and [render_include] raise a TypeError when their
    handler was not configured, and otherwise return what the handler
    returns for the question number or the identifier; the state is left
    as it is in both cases. *)
Theorem required_handlers (ext : Externals) (mode : Mode) (w : World)
    (arg : string) (cs : option (list Token)) :
  (question_renderer (instance w) = None →
     render ext mode (Node (Question arg) cs) w = (inl TypeError, w))
  ∧ (∀ f, question_renderer (instance w) = Some f →
       render ext mode (Node (Question arg) cs) w = (inr (Some (f arg)), w))
  ∧ (include_handler (instance w) = None →
       render ext mode (Node (Include arg) cs) w = (inl TypeError, w))
  ∧ (∀ f, include_handler (instance w) = Some f →
       render ext mode (Node (Include arg) cs) w = (inr (Some (f arg)), w)).
Proof.
  repeat split; intros; cbn [render];
    unfold render_question, render_include; rewrite bind_run; cbn;
    by rewrite H.
Qed.

Lemma required_handlers_witness :
  render sample_externals SlideMode (leaf (Include "part")) sample_world
  = (inl TypeError, sample_world).
Proof.
  destruct (required_handlers sample_externals SlideMode sample_world "part"
              None) as (_ & _ & H & _).
  apply H. reflexivity.
Defined.

(** X15. [render_nonbreaking_spaces_dots] accepts only the empty string and
    the single space as first and third part: the empty string is dropped,
    the space becomes the no-break space; with any other first or third
    part the rule raises a KeyError.  The state is left as it is. *)
Theorem nonbreaking_spaces_dots_keys (ext : Externals) (mode : Mode)
    (w : World) (first second third : string) (cs : option (list Token)) :
  let glyph k := if decide (k = EmptyString) then EmptyString else "&#160;" in
  let valid k := k = EmptyString ∨ k = " " in
  (valid first → valid third →
     render ext mode (Node (NonbreakingSpacesDots first second third) cs) w
     = (inr (Some (glyph first +:+ second +:+ glyph third)), w))
  ∧ (¬ (valid first ∧ valid third) →
     render ext mode (Node (NonbreakingSpacesDots first second third) cs) w
     = (inl KeyError, w)).
Proof.
  intros glyph valid. unfold glyph, valid. cbn [render].
  unfold render_nonbreaking_spaces_dots, dots_lookup. split.
  - intros [-> | ->] [-> | ->]; reflexivity.
  - intros Hinvalid. rewrite bind_run.
    destruct (decide (first = EmptyString)) as [->|H1].
    + cbn. rewrite bind_run.
      destruct (decide (third = EmptyString)) as [->|H3]; [tauto|].
      destruct (decide (third = " ")) as [->|H4]; [tauto|]. reflexivity.
    + destruct (decide (first = " ")) as [->|H2]; [|reflexivity].
      cbn. rewrite bind_run.
      destruct (decide (third = EmptyString)) as [->|H3]; [tauto|].
      destruct (decide (third = " ")) as [->|H4]; [tauto|]. reflexivity.
Qed.

Lemma nonbreaking_spaces_dots_keys_witness :
  render sample_externals DocumentMode
    (leaf (NonbreakingSpacesDots " " "..." EmptyString)) sample_world
  = (inr (Some "&#160;..."), sample_world)
  ∧ render sample_externals DocumentMode
      (leaf (NonbreakingSpacesDots "x" "..." EmptyString)) sample_world
    = (inl KeyError, sample_world).
Proof.
  split.
  - destruct (nonbreaking_spaces_dots_keys sample_externals DocumentMode
                sample_world " " "..." EmptyString None) as [H _].
    apply H; [by right | by left].
  - destruct (nonbreaking_spaces_dots_keys sample_externals DocumentMode
                sample_world "x" "..." EmptyString None) as [_ H].
    apply H. intros [[H1|H1] _]; discriminate.
Defined.

(** ** The document root *)

Lemma mapM_all_absent (render : Token → Py (option string)) (l : list Token)
    (w : World) :
  Forall (λ t, ∀ w0, render t w0 = (inr None, w0)) l →
  mapM render l w = (inr (replicate (length l) None), w).
Proof.
  intros Hl. induction Hl as [|t l Ht _ IH]; [done|].
  by rewrite mapM_cons, Ht, IH.
Qed.

(** X16. A document whose children are all comments or table bodies without
    children renders to the empty string, without a line break at its end;
    the only change of the state is that the footnotes of the document were
    taken over.  This covers the document without any child. *)
Theorem document_of_suppressed_children (ext : Externals) (mode : Mode)
    (fn : gmap string (string * string)) (l : list Token) (w : World) :
  Forall (λ t, token_kind t = BlockComment
               ∨ ∃ header, t = Node (TableBody header) None
                           ∨ t = Node (TableBody header) (Some [])) l →
  render ext mode (Node (Document fn) (Some l)) w
  = (inr (Some EmptyString), after_footnotes fn w).
Proof.
  intros Hl. cbn [render]. unfold render_document. rewrite bind_run.
  change (modify_self (λ self, set_footnotes (fn ∪ footnotes self) self) w)
    with (@inr Exc unit (), after_footnotes fn w).
  cbv beta iota. unfold render_inner.
  rewrite !bind_run, (mapM_all_absent (render ext mode) l).
  - cbn. clear Hl. induction l as [|t l IH]; [done|]. exact IH.
  - eapply Forall_impl; [exact Hl|]. simpl.
    intros [k cs] [Hk|[header [->| ->]]] w0; [|done..].
    simpl in Hk. by subst k.
Qed.

Lemma document_of_suppressed_children_witness :
  render sample_externals DocumentMode
    (node (Document {[ "n1" := ("dest", "title") ]})
       [node BlockComment [text "x"]; node (TableBody true) []])
    sample_world
  = (inr (Some EmptyString),
     after_footnotes {[ "n1" := ("dest", "title") ]} sample_world).
Proof.
  apply document_of_suppressed_children.
  apply Forall_cons. split; [by left|].
  apply Forall_cons. split; [|by apply Forall_nil].
  right. exists true. by right.
Defined.

(** ** Dialogues *)

(** X17. A Qso whose first child has no attribute [received] (is no
    QsoLine) raises an AttributeError.  The slide renderer leaves the state
    as it is; the document renderer has already incremented the margin id,
    and has not called the template. *)
Theorem qso_child_without_received (ext : Externals) (k : Kind)
    (ccs : option (list Token)) (rest : list Token) (w : World) :
  (∀ received, k ≠ QsoLine received) →
  render ext SlideMode (Node Qso (Some (Node k ccs :: rest))) w
  = (inl AttributeError, w)
  ∧ render ext DocumentMode (Node Qso (Some (Node k ccs :: rest))) w
    = (inl AttributeError, enter_margin w)
  ∧ margin_id (instance (enter_margin w)) = margin_id (instance w) + 1
  ∧ template_calls (enter_margin w) = template_calls w.
Proof.
  intros Hk.
  assert (Hloop : ∀ line qso w0,
            qso_loop (render ext SlideMode) line (Node k ccs :: rest) qso w0
            = (inl AttributeError, w0)
            ∧ qso_loop (render ext DocumentMode) line (Node k ccs :: rest) qso w0
              = (inl AttributeError, w0)).
  { intros line qso w0. rewrite !qso_loop_cons.
    destruct k; try done. by destruct (Hk received). }
  split.
  - cbn [render]. unfold slide_render_qso, qso_children.
    rewrite bind_run. by destruct (Hloop slide_qso_line
      ("<div class=" +:+ dq +:+ "qso r-fit-text" +:+ dq +:+ ">" +:+ nl) w)
      as [-> _].
  - split; [|done]. rewrite render_margin_qso. unfold qso_children.
    by destruct (Hloop qso_line EmptyString (enter_margin w)) as [_ ->].
Qed.

Lemma qso_child_without_received_witness :
  render sample_externals DocumentMode (node Qso [text "cq"]) sample_world
  = (inl AttributeError, enter_margin sample_world).
Proof.
  destruct (qso_child_without_received sample_externals (RawText "cq") None []
              sample_world) as (_ & H & _); [discriminate | exact H].
Defined.

(** ** Tags of the slide renderer *)

(** X18. In slide mode a tag whose type is none of fragment, left, right and
    note renders to the empty string without rendering its children: it
    cannot raise and it leaves the state as it is, whatever is below it. *)
Theorem slide_ignores_other_tags (ext : Externals) (tagtype : string)
    (cs : option (list Token)) (w : World) :
  tagtype ≠ "fragment" → tagtype ≠ "left" → tagtype ≠ "right" →
  tagtype ≠ "note" →
  render ext SlideMode (Node (Tag tagtype) cs) w = (inr (Some EmptyString), w).
Proof.
  intros H1 H2 H3 H4. cbn [render]. unfold slide_render_tag.
  by rewrite !decide_False by done.
Qed.

Lemma slide_ignores_other_tags_witness :
  render sample_externals SlideMode
    (node (Tag "webmargin") [leaf (Question "q1")]) sample_world
  = (inr (Some EmptyString), sample_world).
Proof.
  apply slide_ignores_other_tags; discriminate.
Defined.

(** ** Joining with the empty separator *)

Lemma foldr_string_app (a b : list string) :
  foldr String.app EmptyString (a ++ b)
  = foldr String.app EmptyString a +:+ foldr String.app EmptyString b.
Proof.
  induction a as [|x a IH]; [done|].
  simpl. by rewrite IH, string_app_assoc.
Qed.

(** X19. With the empty separator, [render_inner] of two lists of children
    one after the other is the concatenation of the two results, the second
    list being rendered in the state the first one left; an exception in
    either part is the exception of the whole. *)
Theorem render_inner_concatenates (render : Token → Py (option string))
    (l1 l2 : list Token) (w : World) :
  render_inner render (Some (l1 ++ l2)) EmptyString w
  = match render_inner render (Some l1) EmptyString w with
    | (inr a, w1) =>
        match render_inner render (Some l2) EmptyString w1 with
        | (inr b, w2) => (inr (a +:+ b), w2)
        | (inl e, w2) => (inl e, w2)
        end
    | (inl e, w1) => (inl e, w1)
    end.
Proof.
  unfold render_inner. rewrite !bind_run, mapM_app.
  destruct (mapM render l1 w) as [[e|r1] w1]; [done|].
  cbn. rewrite bind_run.
  destruct (mapM render l2 w1) as [[e|r2] w2]; [done|].
  unfold ret.
  by rewrite filter_not_none_app, !str_join_empty_base, foldr_string_app.
Qed.

Lemma render_inner_single (render : Token → Py (option string)) (t : Token)
    (w : World) :
  render_inner render (Some [t]) EmptyString w
  = match render t w with
    | (inr (Some s), w') => (inr s, w')
    | (inr None, w') => (inr EmptyString, w')
    | (inl e, w') => (inl e, w')
    end.
Proof.
  unfold render_inner. rewrite bind_run, mapM_cons.
  by destruct (render t w) as [[e|[s|]] w'].
Qed.

(** X20. Where the children are joined with the empty separator, a webonly
    tag is transparent in document mode: replacing the tag by its children
    changes neither the result nor the final state nor an exception. *)
Theorem webonly_tag_is_transparent (ext : Externals) (l1 cs l2 : list Token)
    (w : World) :
  render_inner (render ext DocumentMode)
    (Some (l1 ++ Node (Tag "webonly") (Some cs) :: l2)) EmptyString w
  = render_inner (render ext DocumentMode) (Some (l1 ++ cs ++ l2))
      EmptyString w.
Proof.
  change (l1 ++ Node (Tag "webonly") (Some cs) :: l2)
    with (l1 ++ [Node (Tag "webonly") (Some cs)] ++ l2).
  rewrite !(render_inner_concatenates _ l1).
  destruct (render_inner (render ext DocumentMode) (Some l1) EmptyString w)
    as [[e|a] w1]; [done|].
  rewrite !(render_inner_concatenates _ _ l2), render_inner_single.
  cbn [render]. unfold render_tag.
  rewrite decide_False by discriminate. rewrite decide_True by done.
  rewrite bind_run.
  by destruct (render_inner (render ext DocumentMode) (Some cs) EmptyString w1)
    as [[e|s] w2].
Qed.

(** ** Photos in the two modes *)

(** X21. A Photo renders, in both modes, to the same figure element of class
    photo, with the reference id as id and name and the caption Abbildung
    number: text, around a content: in slide mode the img element of the
    asset photos/id.png alone, in document mode that img element inside an
    a element that links to the asset.  The alternative text is what the
    handler returns, or empty.  The state is left as it is. *)
Theorem photo_link_by_mode (ext : Externals) (w : World)
    (id : string) (ref : option string) (text number : string)
    (cs : option (list Token)) :
  let alt_text :=
    match photo_handler (instance w) with
    | Some handler =>
        match handler id with
        | Some a => a
        | None => EmptyString
        end
    | None => EmptyString
    end in
  let url := "photos/" +:+ id +:+ ".png" in
  let ref_text := match ref with Some r => r | None => "None" end in
  let img :=
    nl +:+ "                <img src=" +:+ dq +:+ url +:+ dq +:+ " alt=" +:+ dq
    +:+ alt_text +:+ dq +:+ ">" +:+ nl +:+ "                " in
  let link :=
    nl +:+ "                <a href=" +:+ dq +:+ url +:+ dq +:+ ">" +:+ img
    +:+ "</a>" +:+ nl +:+ "                " in
  let figure content :=
    nl +:+ "                <figure class=" +:+ dq +:+ "photo" +:+ dq
    +:+ " id=" +:+ dq +:+ "ref_" +:+ ref_text +:+ dq +:+ " name=" +:+ dq
    +:+ ref_text +:+ dq +:+ ">" +:+ nl
    +:+ "                    " +:+ content +:+ nl
    +:+ "                    <figcaption>Abbildung " +:+ number +:+ ": "
    +:+ text +:+ "</figcaption>" +:+ nl
    +:+ "                </figure>" +:+ nl +:+ "                " in
  render ext SlideMode (Node (Photo id ref text number) cs) w
  = (inr (Some (figure img)), w)
  ∧ render ext DocumentMode (Node (Photo id ref text number) cs) w
    = (inr (Some (figure link)), w).
Proof.
  intros alt_text url ref_text img link figure.
  subst alt_text url ref_text img link figure.
  cbn [render]. rewrite !bind_run. unfold get_self, ret.
  unfold render_photo, render_figure_helper, render_img_helper,
    render_figure_link_helper, py_or, sp16, sp20.
  destruct (photo_handler (instance w)) as [handler|];
    [|by destruct ref].
  destruct (handler id) as [a|]; [|by destruct ref]. simpl.
  case_bool_decide as Ha; [by destruct ref|].
  destruct (decide (a = EmptyString)) as [->|]; [by destruct ref | done].
Qed.

(** ** The root of the numbering pass *)

(** X22. [collect_figures] numbers the tokens below the root only: the root
    keeps its class and all its attributes, its number included, even when
    it is itself a picture, a photo or a table; a root without children
    comes back unchanged, with the counter at zero and the map empty. *)
Theorem collect_figures_leaves_root (document : Token) (self : Renderer) :
  token_kind (collect_figures document self).1 = token_kind document
  ∧ (token_children document = None →
     collect_figures document self
     = (document, set_figure_map ∅ (set_figure_counter 0 self))).
Proof.
  split; [apply collect_kind|].
  destruct document as [k [cs|]]; [discriminate | reflexivity].
Qed.

Lemma collect_figures_leaves_root_witness :
  collect_figures (leaf (Picture "a" (Some "fig-a") "A" "old")) sample_renderer
  = (leaf (Picture "a" (Some "fig-a") "A" "old"),
     set_figure_map ∅ (set_figure_counter 0 sample_renderer)).
Proof.
  destruct (collect_figures_leaves_root
              (leaf (Picture "a" (Some "fig-a") "A" "old")) sample_renderer)
    as [_ H].
  apply H. reflexivity.
Defined.

(** A margin tag inside a margin tag: two calls, and the margin id advanced
    by two. *)
Lemma render_counts_template_calls_witness :
  let document :=
    node (Document ∅)
      [node (Tag "webmargin") [node (Tag "webtip") [text "x"]]] in
  let w' := (render sample_externals DocumentMode document sample_world).2 in
  ∃ new,
    template_calls w' = template_calls sample_world ++ new
    ∧ margin_id (instance w')
      = margin_id (instance sample_world) + length new.
Proof.
  intros document w'.
  destruct (render_counts_template_calls sample_externals DocumentMode
              document sample_world) as (new & Hc & _ & Hret & _).
  exists new. split; [exact Hc|].
  eapply Hret. reflexivity.
Defined.

(** ** The reset at the start of the numbering pass *)

(** C2 (as amended). [collect_figures] starts the traversal from a figure
    counter of zero and an empty figure map, whatever their values were: the
    counter ends at the number of numbered figures of the document, the map
    is built from the empty map (for a document without figures the counter
    ends at zero and the map is empty), and on two instances with the same
    edition, chapter and section the pass writes the same numbers on the
    tree and ends with the same counter and the same map, so a second run
    gives what a fresh instance gives.  The margin-id counters margin_id and
    margin_anchor_id are not reset: the pass leaves them as they were. *)
Theorem collect_figures_resets_numbering (document : Token) (s1 s2 : Renderer) :
  edition s1 = edition s2 → chapter s1 = chapter s2 → section s1 = section s2 →
  (∃ start,
     collect_figures document s1 = _collect_figures_recursive document start
     ∧ figure_counter start = 0 ∧ figure_map start = ∅
     ∧ margin_id start = margin_id s1
     ∧ margin_anchor_id start = margin_anchor_id s1)
  ∧ figure_counter (collect_figures document s1).2
    = length (filter (λ f, numbered f = true) (figures document))
  ∧ figure_map (collect_figures document s1).2
    = expected_map s1 0 (figures document) ∅
  ∧ (figures document = [] →
     figure_counter (collect_figures document s1).2 = 0
     ∧ figure_map (collect_figures document s1).2 = ∅)
  ∧ (collect_figures document s1).1 = (collect_figures document s2).1
  ∧ figure_counter (collect_figures document s1).2
    = figure_counter (collect_figures document s2).2
  ∧ figure_map (collect_figures document s1).2
    = figure_map (collect_figures document s2).2
  ∧ margin_id (collect_figures document s1).2 = margin_id s1
  ∧ margin_anchor_id (collect_figures document s1).2 = margin_anchor_id s1.
Proof.
  intros He Hc Hs.
  assert (Hcount : figure_counter (collect_figures document s1).2
                   = count_numbered (figures document)).
  { by destruct (collect_figures_numbers document s1) as (_ & _ & H & _). }
  assert (Hmap : figure_map (collect_figures document s1).2
                 = expected_map s1 0 (figures document) ∅).
  { unfold collect_figures. rewrite collect_map. simpl.
    by apply expected_map_context. }
  split.
  { exists (set_figure_map ∅ (set_figure_counter 0 s1)). by repeat split. }
  split; [exact Hcount|]. split; [exact Hmap|].
  split.
  { intros Hnone. rewrite Hcount, Hmap, Hnone. by split. }
  unfold collect_figures.
  set (a1 := set_figure_map ∅ (set_figure_counter 0 s1)).
  set (a2 := set_figure_map ∅ (set_figure_counter 0 s2)).
  assert (Hsame : same_numbering a1 a2) by (by repeat split).
  destruct (collect_same document a1 a2 Hsame) as (H1 & _ & _ & _ & H2 & H3).
  pose proof (collect_outside document a1) as (Ha & Hm & _).
  repeat split; auto.
Qed.

(** An instance that has numbered two figures of another document and
    rendered a margin tag: counter 2, two map entries, margin id 1.  The
    pass on a document with one figure ends with counter 1 and without the
    old entries, as on a fresh instance, and with the margin id still 1. *)
Lemma collect_figures_resets_numbering_witness :
  let earlier :=
    node (Document ∅)
      [leaf (Picture "o1" (Some "old-1") "O" EmptyString);
       leaf (Photo "o2" (Some "old-2") "O" EmptyString)] in
  let numbered_before := (collect_figures earlier sample_renderer).2 in
  let used :=
    instance
      (render sample_externals DocumentMode
         (node (Document ∅) [node (Tag "webmargin") []])
         (mkWorld numbered_before [])).2 in
  let document :=
    node (Document ∅) [leaf (Picture "a" (Some "fig-a") "A" EmptyString)] in
  (figure_counter used = 2 ∧ is_Some (figure_map used !! "old-1")
   ∧ margin_id used = 1)
  ∧ figure_counter (collect_figures document used).2 = 1
  ∧ figure_map (collect_figures document used).2 !! "old-1" = None
  ∧ figure_map (collect_figures document used).2 !! "fig-a" = Some "3-2.1.1"
  ∧ (collect_figures document used).1
    = (collect_figures document sample_renderer).1
  ∧ margin_id (collect_figures document used).2 = 1.
Proof.
  intros earlier numbered_before used document.
  destruct (collect_figures_resets_numbering document used sample_renderer)
    as (_ & Hcount & Hmap & _ & Htree & _ & _ & Hmargin & _);
    [reflexivity | reflexivity | reflexivity |].
  split.
  { split; [reflexivity|]. split; [by eexists | reflexivity]. }
  split; [by rewrite Hcount|].
  split; [by rewrite Hmap|].
  split; [by rewrite Hmap|].
  split; [exact Htree|]. by rewrite Hmargin.
Defined.
